(** * HanORM: statement building and transaction coordination

    A shallow embedding of the [HanORM] class (TypeScript, over the
    [mysql2/promise] driver) and of its two method decorators.  The
    SQL texts are reproduced character for character from the template
    literals of the source; the driver is an oracle whose every call is
    recorded in a trace. *)

From Stdlib Require Import ZArith List String Ascii Lia.
From stdpp Require Import base gmap strings list pretty.

Open Scope string_scope.
Open Scope list_scope.

(** ** JavaScript values and the string operations the source uses *)

Module Js.

(** The primitive values a [Record<string, any>] holds in this model.
    Numbers are the integer-valued ones: [VNum n] is the Number nearest
    to the integer [n] (that integer itself up to 2^53 in magnitude). *)
Inductive value : Type :=
| VUndefined
| VNull
| VBool (b : bool)
| VNum (n : Z)
| VStr (s : string).

(** [if (v)], [v && w], [v ? a : b], [v || w]. *)
Definition truthy (v : value) : bool :=
  match v with
  | VUndefined | VNull => false
  | VBool b => b
  | VNum n => negb (n =? 0)%Z
  | VStr s => negb (String.eqb s "")
  end.

(** An optional number ([page?: number]) used as a condition. *)
Definition truthyNum (o : option Z) : bool :=
  match o with
  | Some n => negb (n =? 0)%Z
  | None => false
  end.

(** An optional string ([sortBy?: string]) used as a condition; also
    [fields?.length], which is truthy exactly for a non-empty string. *)
Definition truthyStr (o : option string) : bool :=
  match o with
  | Some s => negb (String.eqb s "")
  | None => false
  end.

(** An optional boolean ([unique?: boolean]) used as a condition. *)
Definition truthyBool (o : option bool) : bool :=
  match o with
  | Some b => b
  | None => false
  end.

(** *** Numbers

    A Number is an IEEE 754 double.  The model holds those whose value is
    an integer, the two infinities and NaN, and computes on them as the
    language does: the exact result, rounded to the nearest double, ties
    to even, overflowing to an infinity. *)

Inductive number : Type :=
| Finite (z : Z)
| Infinite (negative : bool)
| NaN.

(** Up to 2^53 in magnitude every integer is a double. *)
Definition exactLimit : Z := 9007199254740992.

(** An integer in the range where doubles are exact. *)
Definition exactInteger (z : Z) : Prop := (Z.abs z <= exactLimit)%Z.

(** What rounds to 2^1024 or beyond is infinite. *)
Definition overflowLimit : Z := (2 ^ 1024)%Z.

(** The integer-valued double nearest to [z], ties to the even
    significand of 53 bits. *)
Definition roundToDouble (z : Z) : Z :=
  let a := Z.abs z in
  if (a <=? exactLimit)%Z then z
  else
    let e := (Z.log2 a - 52)%Z in
    let q := (a / 2 ^ e)%Z in
    let r := (a mod 2 ^ e)%Z in
    let half := (2 ^ (e - 1))%Z in
    let q' := if (r <? half)%Z then q
              else if (half <? r)%Z then (q + 1)%Z
              else if Z.even q then q else (q + 1)%Z in
    (Z.sgn z * (q' * 2 ^ e))%Z.

Definition toNumber (z : Z) : number :=
  let r := roundToDouble z in
  if (overflowLimit <=? Z.abs r)%Z then Infinite (z <? 0)%Z else Finite r.

(** [a - b]. *)
Definition subNumber (a b : number) : number :=
  match a, b with
  | NaN, _ | _, NaN => NaN
  | Infinite n, Infinite n' => if Bool.eqb n n' then NaN else Infinite n
  | Infinite n, Finite _ => Infinite n
  | Finite _, Infinite n => Infinite (negb n)
  | Finite x, Finite y => toNumber (x - y)
  end.

(** [a * b]. *)
Definition mulNumber (a b : number) : number :=
  match a, b with
  | NaN, _ | _, NaN => NaN
  | Infinite n, Infinite n' => Infinite (xorb n n')
  | Infinite n, Finite y => if (y =? 0)%Z then NaN else Infinite (xorb n (y <? 0)%Z)
  | Finite x, Infinite n => if (x =? 0)%Z then NaN else Infinite (xorb (x <? 0)%Z n)
  | Finite x, Finite y => toNumber (x * y)
  end.

Definition digitsOf (v : Z) : Z := Z.of_nat (String.length (pretty v)).

(** The decimal with the fewest significant digits that still rounds to
    the double [x], the nearest to [x] when two have as few: tried with
    one digit, then two, and so on ([m] is the number of trailing zeros
    tried). *)
Fixpoint shortest (fuel : nat) (m x : Z) : Z :=
  match fuel with
  | O => x
  | S fuel' =>
      if (m <=? 0)%Z then x
      else
        let g := (10 ^ m)%Z in
        let lo := (x / g * g)%Z in
        let hi := (lo + g)%Z in
        let okLo := (0 <? lo)%Z && (roundToDouble lo =? x)%Z in
        let okHi := (roundToDouble hi =? x)%Z in
        if okLo && okHi then
          if (x - lo <? hi - x)%Z then lo
          else if (hi - x <? x - lo)%Z then hi
          else if Z.even (x / g) then lo else hi
        else if okLo then lo
        else if okHi then hi
        else shortest fuel' (m - 1)%Z x
  end.

Fixpoint stripZeros (fuel : nat) (v : Z) : Z :=
  match fuel with
  | O => v
  | S fuel' => if (v mod 10 =? 0)%Z then stripZeros fuel' (v / 10)%Z else v
  end.

(** A positive double beyond 2^53 as text: its shortest decimal, written
    out in full up to 21 digits and in exponent form from there on. *)
Definition printBig (x : Z) : string :=
  let v := shortest 17 (digitsOf x - 1)%Z x in
  let n := digitsOf v in
  if (n <=? 21)%Z then pretty v
  else
    match pretty (stripZeros 400 v) with
    | String c rest =>
        String c (if String.eqb rest "" then "" else "." +:+ rest)
        +:+ "e+" +:+ pretty (n - 1)%Z
    | EmptyString => ""
    end.

Definition printFinite (z : Z) : string :=
  if (Z.abs z <=? exactLimit)%Z then pretty z
  else if (z <? 0)%Z then "-" +:+ printBig (- z)%Z
  else printBig z.

(** A Number inside a template literal. *)
Definition printNumber (x : number) : string :=
  match x with
  | Finite z => printFinite z
  | Infinite false => "Infinity"
  | Infinite true => "-Infinity"
  | NaN => "NaN"
  end.

(** The number [n] inside a template literal. *)
Definition numToString (n : Z) : string := printNumber (toNumber n).

(** [`${v}`]. *)
Definition toString (v : value) : string :=
  match v with
  | VUndefined => "undefined"
  | VNull => "null"
  | VBool true => "true"
  | VBool false => "false"
  | VNum n => numToString n
  | VStr s => s
  end.

(** [Array.prototype.join] on an array of strings. *)
Fixpoint join (sep : string) (l : list string) : string :=
  match l with
  | [] => ""
  | [x] => x
  | x :: rest => x +:+ sep +:+ join sep rest
  end.

(** A [Record<string, any>]: its own enumerable entries, in the order
    [Object.keys], [Object.values] and [Object.entries] visit them. *)
Definition record : Type := list (string * value).

Definition keys (o : record) : list string := map fst o.
Definition values (o : record) : list value := map snd o.
Definition entries (o : record) : list (string * value) := o.

(** The line break of a multi-line template literal. *)
Definition nl : string := String "010" EmptyString.

(** Number of occurrences of a character in a text. *)
Fixpoint countChar (c : ascii) (s : string) : nat :=
  match s with
  | EmptyString => 0
  | String d rest => (if Ascii.eqb c d then 1 else 0) + countChar c rest
  end.

(** [needle] occurs in [text]. *)
Definition occursIn (needle text : string) : Prop :=
  exists pre post, text = pre +:+ needle +:+ post.

End Js.

Export Js.

(** ** The SQL texts *)

Module Sql.

(** [create]: the [insertEntityQuery] template. *)
Definition insertEntityQuery (entityName : string) (fieldNames : list string) : string :=
  nl +:+ "      INSERT INTO " +:+ entityName +:+ " (" +:+ join ", " fieldNames +:+ ")"
  +:+ nl +:+ "      VALUES (" +:+ join ", " (map (fun _ => "?") fieldNames) +:+ ")"
  +:+ nl +:+ "    ".

(** [createMany]: the same template, indented two columns deeper. *)
Definition insertEntityQueryMany (entityName : string) (fieldNames : list string) : string :=
  nl +:+ "        INSERT INTO " +:+ entityName +:+ " (" +:+ join ", " fieldNames +:+ ")"
  +:+ nl +:+ "        VALUES (" +:+ join ", " (map (fun _ => "?") fieldNames) +:+ ")"
  +:+ nl +:+ "      ".

(** [update] and [updateMany]: the [updateEntityQuery] template. *)
Definition updateEntityQuery (entityName : string) (fieldNames : list string) : string :=
  nl +:+ "      UPDATE " +:+ entityName
  +:+ nl +:+ "      SET " +:+ join ", " (map (fun fieldName => fieldName +:+ " = ?") fieldNames)
  +:+ nl +:+ "      WHERE id = ?"
  +:+ nl +:+ "    ".

(** [delete] and [deleteMany]. *)
Definition deleteEntityQuery (entityName : string) : string :=
  "DELETE FROM " +:+ entityName +:+ " WHERE id = ?".

Section Escaped.
(** [escape] of [mysql2]: the driver's value-to-literal formatter. *)
Variable escape : value -> string.

(** [find] and [count]: the [conditionString]. *)
Definition conditionString (conditions : option record) : string :=
  match conditions with
  | Some c =>
      "WHERE " +:+ join " AND "
        (map (fun kv => fst kv +:+ " = " +:+ escape (snd kv)) (entries c))
  | None => ""
  end.
End Escaped.

Inductive SortOrder : Type := asc | desc.

(** [sortOrder.toUpperCase()]. *)
Definition sortOrderUpper (o : SortOrder) : string :=
  match o with
  | asc => "ASC"
  | desc => "DESC"
  end.

Definition orderByClause (sortBy : option string) (sortOrder : option SortOrder) : string :=
  match sortBy, sortOrder with
  | Some sb, Some so =>
      if truthyStr (Some sb) then "ORDER BY " +:+ sb +:+ " " +:+ sortOrderUpper so else ""
  | _, _ => ""
  end.

(** [pageSize && page ? `LIMIT ... OFFSET ...` : '']. *)
Definition limitClause (page pageSize : option Z) : string :=
  match pageSize, page with
  | Some ps, Some p =>
      if truthyNum (Some ps) && truthyNum (Some p)
      then "LIMIT " +:+ numToString ps +:+ " OFFSET "
           +:+ printNumber (mulNumber (subNumber (toNumber p) (toNumber 1)) (toNumber ps))
      else ""
  | _, _ => ""
  end.

(** [fields?.length ? fields : '*']. *)
Definition selectList (fields : option string) : string :=
  match fields with
  | Some f => if truthyStr (Some f) then f else "*"
  | None => "*"
  end.

Definition selectEntitiesQuery (entityName : string) (fields : option string)
    (conditionString orderByClause limitClause : string) : string :=
  nl +:+ "        SELECT " +:+ selectList fields
  +:+ nl +:+ "        FROM " +:+ entityName
  +:+ nl +:+ "        " +:+ conditionString
  +:+ nl +:+ "        " +:+ orderByClause
  +:+ nl +:+ "        " +:+ limitClause
  +:+ nl +:+ "      ".

Definition countQuery (entityName conditionString : string) : string :=
  "SELECT COUNT(*) AS count FROM " +:+ entityName +:+ " " +:+ conditionString.

Definition selectByIdQuery (entityName : string) (fields : option string) : string :=
  "SELECT " +:+ selectList fields +:+ " FROM " +:+ entityName +:+ " WHERE id = ?".

Inductive JoinType : Type := INNER | LEFT | RIGHT.

(** [joinType.toUpperCase()]. *)
Definition joinTypeClause (joinType : JoinType) : string :=
  match joinType with
  | INNER => "INNER"
  | LEFT => "LEFT"
  | RIGHT => "RIGHT"
  end.

(** [selectFields !== undefined ? selectFields?.join(', ') : '*']. *)
Definition selectFieldsClause (selectFields : option (list string)) : string :=
  match selectFields with
  | Some fs => join ", " fs
  | None => "*"
  end.

Definition joinConditionsClause (joinConditions : list string) : string :=
  join " AND " joinConditions.

Definition joinQuery (joinType : JoinType) (table1 table2 : string)
    (joinConditions : list string) (selectFields : option (list string)) : string :=
  nl +:+ "      SELECT " +:+ selectFieldsClause selectFields
  +:+ nl +:+ "      FROM " +:+ table1
  +:+ nl +:+ "      " +:+ joinTypeClause joinType +:+ " JOIN " +:+ table2
  +:+ " ON " +:+ joinConditionsClause joinConditions
  +:+ nl +:+ "    ".

Definition dropTableQuery (entityName : string) : string :=
  "DROP TABLE IF EXISTS " +:+ entityName.

End Sql.

Export Sql.

(** ** The schema manager's column clauses *)

Module Schema.

Inductive MySQLType : Type :=
| INT | TINYINT | SMALLINT | MEDIUMINT | BIGINT | DECIMAL | NUMERIC | FLOAT
| DOUBLE | BIT | DATE | TIME | DATETIME | TIMESTAMP | YEAR | CHAR | VARCHAR
| BINARY | VARBINARY | TINYBLOB | BLOB | MEDIUMBLOB | LONGBLOB | TINYTEXT
| TEXT | MEDIUMTEXT | LONGTEXT | ENUM | SET | BOOL | BOOLEAN.

Definition typeName (t : MySQLType) : string :=
  match t with
  | INT => "INT" | TINYINT => "TINYINT" | SMALLINT => "SMALLINT"
  | MEDIUMINT => "MEDIUMINT" | BIGINT => "BIGINT" | DECIMAL => "DECIMAL"
  | NUMERIC => "NUMERIC" | FLOAT => "FLOAT" | DOUBLE => "DOUBLE"
  | BIT => "BIT" | DATE => "DATE" | TIME => "TIME"
  | DATETIME => "DATETIME" | TIMESTAMP => "TIMESTAMP" | YEAR => "YEAR"
  | CHAR => "CHAR" | VARCHAR => "VARCHAR" | BINARY => "BINARY"
  | VARBINARY => "VARBINARY" | TINYBLOB => "TINYBLOB" | BLOB => "BLOB"
  | MEDIUMBLOB => "MEDIUMBLOB" | LONGBLOB => "LONGBLOB" | TINYTEXT => "TINYTEXT"
  | TEXT => "TEXT" | MEDIUMTEXT => "MEDIUMTEXT" | LONGTEXT => "LONGTEXT"
  | ENUM => "ENUM" | SET => "SET" | BOOL => "BOOL" | BOOLEAN => "BOOLEAN"
  end.

(** [FieldDefinition], with the two properties [createTable] also reads
    ([check], [comment]).  An optional property that is absent is
    [None]; [defaultValue] is an [any], absent when [VUndefined]. *)
Record FieldDefinition : Type := {
  type : MySQLType;
  size : option Z;
  unique : option bool;
  nullable : option bool;
  primary : option bool;
  autoIncrement : option bool;
  defaultValue : value;
  check : option string;
  comment : option string
}.

(** [if (c) constraints.push(x)]. *)
Definition pushIf (c : bool) (x : string) (constraints : list string) : list string :=
  if c then constraints ++ [x] else constraints.

(** [nullable === undefined]. *)
Definition isUndefined {A : Type} (o : option A) : bool :=
  match o with
  | None => true
  | Some _ => false
  end.

(** [defaultValue !== undefined]. *)
Definition isDefined (v : value) : bool :=
  match v with
  | VUndefined => false
  | _ => true
  end.

Definition orEmpty (o : option string) : string :=
  match o with
  | Some s => s
  | None => ""
  end.

(** The [constraints] array of one field, after its eight [if]s. *)
Definition constraints (field : FieldDefinition) : list string :=
  let c0 := [] in
  let c1 := pushIf (truthyBool (unique field)) "UNIQUE" c0 in
  let c2 := pushIf (truthyBool (primary field)) "PRIMARY KEY" c1 in
  let c3 := pushIf (truthyBool (nullable field)) "NULL" c2 in
  let c4 := pushIf (isUndefined (nullable field)) "NOT NULL" c3 in
  let c5 := pushIf (truthyBool (autoIncrement field)) "AUTO_INCREMENT" c4 in
  let c6 := pushIf (isDefined (defaultValue field))
              ("DEFAULT " +:+ toString (defaultValue field)) c5 in
  let c7 := pushIf (truthyStr (check field))
              ("CHECK (" +:+ orEmpty (check field) +:+ ")") c6 in
  pushIf (truthyStr (comment field))
    ("COMMENT '" +:+ orEmpty (comment field) +:+ "'") c7.

(** [size ? `(${size})` : '']. *)
Definition sizeClause (size : option Z) : string :=
  match size with
  | Some n => if truthyNum (Some n) then "(" +:+ numToString n +:+ ")" else ""
  | None => ""
  end.

(** The column clause the [map] callback returns for one entry. *)
Definition columnClause (fieldName : string) (field : FieldDefinition) : string :=
  fieldName +:+ " " +:+ typeName (type field) +:+ sizeClause (size field)
  +:+ " " +:+ join " " (constraints field).

(** A [Record<keyof T, FieldDefinition>], in [Object.entries] order. *)
Definition EntityFields : Type := list (string * FieldDefinition).

Definition fieldDefinitions (fields : EntityFields) : string :=
  join ", " (map (fun e => columnClause (fst e) (snd e)) fields).

Definition createTableQuery (entityName : string) (fields : EntityFields) : string :=
  nl +:+ "    CREATE TABLE IF NOT EXISTS " +:+ entityName +:+ " ("
  +:+ nl +:+ "      id INT AUTO_INCREMENT PRIMARY KEY,"
  +:+ nl +:+ "      " +:+ fieldDefinitions fields
  +:+ nl +:+ "    )"
  +:+ nl +:+ "  ".

End Schema.

Export Schema.

(** ** The driver: connections, calls and their outcomes *)

Module Driver.

(** A pooled connection, by identity. *)
Abbreviation conn := nat.

(** What the driver throws. *)
Inductive error : Type :=
| DriverError (message : string).

(** The first component of what [connection.execute] resolves to:
    rows for a query, a header for a statement. *)
Inductive qresult : Type :=
| QRows (rows : list record)
| QHeader (affectedRows insertId : Z).

(** One call into the driver, with what it answered. *)
Inductive event : Type :=
| EvGetConnection (res : error + conn)
| EvBeginTransaction (c : conn) (res : option error)
| EvExecute (c : conn) (sql : string) (params : list value) (res : error + qresult)
| EvCommit (c : conn) (res : option error)
| EvRollback (c : conn) (res : option error)
| EvRelease (c : conn).

(** The driver's behaviour: each answer may depend on every call made
    so far.  [None] is a call that resolves, [Some e] one that rejects. *)
Record Driver : Type := {
  pool_getConnection : list event -> error + conn;
  conn_beginTransaction : list event -> conn -> option error;
  conn_execute : list event -> conn -> string -> list value -> error + qresult;
  conn_commit : list event -> conn -> option error;
  conn_rollback : list event -> conn -> option error;
  escape : value -> string
}.

(** *** The store behind the connections

    The transactional behaviour assumed of the database the driver
    talks to: a statement executed on a connection inside a transaction
    is pending until that connection commits, and is discarded when it
    rolls back; outside a transaction it is durable at once; a BEGIN on
    a connection with an open transaction commits that one first. *)

Abbreviation stmt := (string * list value)%type.

Record db : Type := {
  durable : list stmt;
  pending : gmap conn (list stmt)
}.

Definition db0 : db := {| durable := []; pending := ∅ |}.

Definition dbStep (d : db) (e : event) : db :=
  match e with
  | EvBeginTransaction c None =>
      {| durable := durable d ++ default [] (pending d !! c);
         pending := <[c := []]> (pending d) |}
  | EvExecute c sql params (inr _) =>
      match pending d !! c with
      | Some p => {| durable := durable d; pending := <[c := p ++ [(sql, params)]]> (pending d) |}
      | None => {| durable := durable d ++ [(sql, params)]; pending := pending d |}
      end
  | EvCommit c None =>
      {| durable := durable d ++ default [] (pending d !! c);
         pending := delete c (pending d) |}
  | EvRollback c None =>
      {| durable := durable d; pending := delete c (pending d) |}
  | _ => d
  end.

Definition replay (d : db) (tr : list event) : db := fold_left dbStep tr d.

(** The statements whose effect is visible to every connection after
    the calls of [tr]. *)
Definition visible (tr : list event) : list stmt := durable (replay db0 tr).

End Driver.

Export Driver.

(** ** The [HanORM] class *)

Module HanORM.

(** *** Construction: the options object is the caller's *)

(** Objects live in a heap and are passed by reference. *)
Abbreviation ref := nat.

Definition prop (o : gmap string value) (k : string) : value :=
  default VUndefined (o !! k).

(** [a ?? b]. *)
Definition nullish (a b : value) : value :=
  match a with
  | VUndefined | VNull => b
  | _ => a
  end.

(** [a || b]. *)
Definition orElse (a b : value) : value := if truthy a then a else b.

Record PoolOptions : Type := {
  connectionLimit : value;
  host : value;
  user : value;
  password : value;
  database : value
}.

Record instance : Type := {
  connectionOptions : ref;
  sync : value;
  logging : value;
  pool : PoolOptions;
  transactionConnection : option conn
}.

(** [new HanORM(connectionOptions)]: the new instance and the heap
    after the constructor has run.  [None] when [r] is not an object
    of the heap. *)
Definition constructor (h : gmap ref (gmap string value)) (r : ref)
    : option (instance * gmap ref (gmap string value)) :=
  match h !! r with
  | None => None
  | Some o =>
      let sync := nullish (prop o "sync") (VBool false) in
      let logging := nullish (prop o "logging") (VBool false) in
      let o1 := delete "sync" o in
      let o2 := delete "logging" o1 in
      let poolConfig :=
        {| connectionLimit := orElse (prop o2 "connectionLimit") (VNum 10);
           host := prop o2 "host";
           user := prop o2 "user";
           password := prop o2 "password";
           database := prop o2 "database" |} in
      Some ({| connectionOptions := r;
               sync := sync;
               logging := logging;
               pool := poolConfig;
               transactionConnection := None |},
            <[r := o2]> h)
  end.

(** *** Methods: state, errors, and the calls made *)

Inductive console_line : Type :=
| ConsoleLog (propertyKey query : string) (params : list value) (tc : option conn)
| ConsoleError (methodName : string) (e : error).

Record world : Type := {
  self : instance;
  trace : list event;
  console : list console_line
}.

Inductive outcome (A : Type) : Type :=
| Returned (a : A)
| Thrown (e : error).
Arguments Returned {A} a.
Arguments Thrown {A} e.

Definition M (A : Type) : Type := world -> outcome A * world.

#[export] Instance M_ret : MRet M := fun A a w => (Returned a, w).

#[export] Instance M_bind : MBind M := fun A B f m w =>
  match m w with
  | (Returned a, w') => f a w'
  | (Thrown e, w') => (Thrown e, w')
  end.

Definition throw {A : Type} (e : error) : M A := fun w => (Thrown e, w).

(** [try { body } catch (error) { handler }]. *)
Definition tryCatch {A : Type} (body : M A) (handler : error -> M A) : M A := fun w =>
  match body w with
  | (Returned a, w') => (Returned a, w')
  | (Thrown e, w') => handler e w'
  end.

(** [try { body } finally { fin }]. *)
Definition tryFinally {A : Type} (body : M A) (fin : M unit) : M A := fun w =>
  match body w with
  | (r, w') =>
      match fin w' with
      | (Returned _, w'') => (r, w'')
      | (Thrown e, w'') => (Thrown e, w'')
      end
  end.

Definition emit (e : event) (w : world) : world :=
  {| self := self w; trace := trace w ++ [e]; console := console w |}.

Definition print (l : console_line) : M unit := fun w =>
  (Returned (), {| self := self w; trace := trace w; console := console w ++ [l] |}).

Definition getTransactionConnection : M (option conn) := fun w =>
  (Returned (transactionConnection (self w)), w).

Definition setTransactionConnection (tc : option conn) : M unit := fun w =>
  (Returned (),
   {| self := {| connectionOptions := connectionOptions (self w);
                 sync := sync (self w);
                 logging := logging (self w);
                 pool := pool (self w);
                 transactionConnection := tc |};
      trace := trace w;
      console := console w |}).

Definition getSync : M value := fun w => (Returned (sync (self w)), w).
Definition getLogging : M value := fun w => (Returned (logging (self w)), w).

Definition ofSum {A : Type} (r : error + A) : outcome A :=
  match r with
  | inl e => Thrown e
  | inr a => Returned a
  end.

Definition ofOption (r : option error) : outcome unit :=
  match r with
  | Some e => Thrown e
  | None => Returned ()
  end.

Section Methods.

Variable drv : Driver.

(** The driver's calls, each recorded with its answer. *)

Definition poolGetConnection : M conn := fun w =>
  let r := pool_getConnection drv (trace w) in
  (ofSum r, emit (EvGetConnection r) w).

Definition connBeginTransaction (c : conn) : M unit := fun w =>
  let r := conn_beginTransaction drv (trace w) c in
  (ofOption r, emit (EvBeginTransaction c r) w).

Definition connExecute (c : conn) (sql : string) (params : list value) : M qresult := fun w =>
  let r := conn_execute drv (trace w) c sql params in
  (ofSum r, emit (EvExecute c sql params r) w).

Definition connCommit (c : conn) : M unit := fun w =>
  let r := conn_commit drv (trace w) c in
  (ofOption r, emit (EvCommit c r) w).

Definition connRollback (c : conn) : M unit := fun w =>
  let r := conn_rollback drv (trace w) c in
  (ofOption r, emit (EvRollback c r) w).

Definition connRelease (c : conn) : M unit := fun w =>
  (Returned (), emit (EvRelease c) w).

(** The decorators.  [target.constructor.name] is ["HanORM"]; the
    time stamp and the colours of the [logQuery] line are left out of
    the recorded line. *)

Definition methodName (propertyKey : string) : string := "HanORM." +:+ propertyKey.

Definition logMethod {A : Type} (propertyKey : string) (originalMethod : M A) : M A :=
  tryCatch originalMethod
    (fun e => print (ConsoleError (methodName propertyKey) e);; throw e).

Definition logQuery {A : Type} (propertyKey query : string) (params : list value)
    (tc : option conn) (originalMethod : M A) : M A :=
  tryCatch
    (logging ← getLogging;
     (if truthy logging then print (ConsoleLog propertyKey query params tc) else mret ());;
     originalMethod)
    (fun e => print (ConsoleError (methodName propertyKey) e);; throw e).

Definition startTransaction : M (option conn) :=
  c ← poolGetConnection;
  setTransactionConnection (Some c);;
  connBeginTransaction c;;
  getTransactionConnection.

Definition commitTransaction : M unit :=
  tc ← getTransactionConnection;
  match tc with
  | None => mret ()
  | Some c =>
      connCommit c;;
      connRelease c;;
      setTransactionConnection None
  end.

Definition rollbackTransaction : M unit :=
  tc ← getTransactionConnection;
  match tc with
  | None => mret ()
  | Some c =>
      connRollback c;;
      connRelease c;;
      setTransactionConnection None
  end.

(** [executeQuery(query, params = [], transactionConnection?)]. *)
Definition executeQuery (query : string) (params : list value)
    (transactionConnection : option conn) : M qresult :=
  logQuery "executeQuery" query params transactionConnection
    (connection ← match transactionConnection with
                  | Some c => mret c
                  | None => poolGetConnection
                  end;
     tryFinally (connExecute connection query params) (connRelease connection)).

Definition dropTable (entityName : string) : M qresult :=
  logMethod "dropTable" (executeQuery (dropTableQuery entityName) [] None).

Definition createTable (entityName : string) (fields : EntityFields) : M unit :=
  logMethod "createTable"
    (sync ← getSync;
     (if truthy sync then dropTable entityName;; mret () else mret ());;
     executeQuery (createTableQuery entityName fields) [] None;;
     mret ()).

(** [join(joinType = 'INNER', ...)]: an [undefined] first argument
    takes the default. *)
Definition join (joinType : option JoinType) (table1 table2 : string)
    (joinConditions : list string) (selectFields : option (list string)) : M qresult :=
  logMethod "join"
    (executeQuery
       (joinQuery (default INNER joinType) table1 table2 joinConditions selectFields)
       [] None).

Definition create (entityName : string) (fields : record) : M qresult :=
  logMethod "create"
    (let fieldNames := keys fields in
     let fieldValues := values fields in
     executeQuery (insertEntityQuery entityName fieldNames) fieldValues None).

(** The [for (let field of entities)] loop of [createMany]. *)
Fixpoint createManyLoop (entityName : string) (transactionConnection : option conn)
    (entities : list record) (result : list qresult) : M (list qresult) :=
  match entities with
  | [] => mret result
  | field :: rest =>
      r ← executeQuery (insertEntityQueryMany entityName (keys field)) (values field)
            transactionConnection;
      createManyLoop entityName transactionConnection rest (result ++ [r])
  end.

Definition createMany (entityName : string) (entities : list record) : M (list qresult) :=
  logMethod "createMany"
    (transactionConnection ← startTransaction;
     tryCatch
       (result ← createManyLoop entityName transactionConnection entities [];
        commitTransaction;;
        mret result)
       (fun e => rollbackTransaction;; throw e)).

Definition update (entityName : string) (id : Z) (fields : record) : M qresult :=
  logMethod "update"
    (executeQuery (updateEntityQuery entityName (keys fields))
       (values fields ++ [VNum id]) None).

(** The [for (let id of ids)] loop of [updateMany]. *)
Fixpoint updateManyLoop (entityName : string) (transactionConnection : option conn)
    (fields : record) (ids : list Z) (result : list qresult) : M (list qresult) :=
  match ids with
  | [] => mret result
  | id :: rest =>
      r ← executeQuery (updateEntityQuery entityName (keys fields))
            (values fields ++ [VNum id]) transactionConnection;
      updateManyLoop entityName transactionConnection fields rest (result ++ [r])
  end.

Definition updateMany (entityName : string) (ids : list Z) (fields : record)
    : M (list qresult) :=
  logMethod "updateMany"
    (transactionConnection ← startTransaction;
     tryCatch
       (result ← updateManyLoop entityName transactionConnection fields ids [];
        commitTransaction;;
        mret result)
       (fun e => rollbackTransaction;; throw e)).

Definition delete (entityName : string) (id : Z) : M unit :=
  logMethod "delete"
    (executeQuery (deleteEntityQuery entityName) [VNum id] None;; mret ()).

(** The [for (const id of ids)] loop of [deleteMany]: the call of
    [commitTransaction] is inside the loop body. *)
Fixpoint deleteManyLoop (entityName : string) (transactionConnection : option conn)
    (ids : list Z) : M unit :=
  match ids with
  | [] => mret ()
  | id :: rest =>
      executeQuery (deleteEntityQuery entityName) [VNum id] transactionConnection;;
      commitTransaction;;
      deleteManyLoop entityName transactionConnection rest
  end.

Definition deleteMany (entityName : string) (ids : list Z) : M unit :=
  logMethod "deleteMany"
    (transactionConnection ← startTransaction;
     tryCatch
       (deleteManyLoop entityName transactionConnection ids)
       (fun e => rollbackTransaction;; throw e)).

(** [result.length > 0 ? result[0] : null]. *)
Definition firstRow (result : qresult) : option record :=
  match result with
  | QRows (r :: _) => Some r
  | _ => None
  end.

Definition findById (entityName : string) (id : Z) (fields : option string)
    : M (option record) :=
  logMethod "findById"
    (result ← executeQuery (selectByIdQuery entityName fields) [VNum id] None;
     mret (firstRow result)).

Definition find (entityName : string) (conditions : option record) (fields : option string)
    (page pageSize : option Z) (sortBy : option string) (sortOrder : option SortOrder)
    : M qresult :=
  logMethod "find"
    (executeQuery
       (selectEntitiesQuery entityName fields
          (conditionString (escape drv) conditions)
          (orderByClause sortBy sortOrder)
          (limitClause page pageSize))
       [] None).

(** [result.length > 0 ? result[0].count : 0]. *)
Definition countOf (result : qresult) : value :=
  match firstRow result with
  | Some r => default VUndefined (list_to_map (M := gmap string value) r !! "count")
  | None => VNum 0
  end.

Definition count (entityName : string) (conditions : option record) : M value :=
  logMethod "count"
    (result ← executeQuery
                (countQuery entityName (conditionString (escape drv) conditions)) [] None;
     mret (countOf result)).

End Methods.

(** The driver calls a run adds to the trace it started from. *)
Definition added (w w' : world) : list event := drop (length (trace w)) (trace w').

End HanORM.

(** ** Indexes and the entity model facade *)

Module Indexing.
Import HanORM.

(** [unique ? 'UNIQUE INDEX' : 'INDEX']. *)
Definition indexType (unique : bool) : string :=
  if unique then "UNIQUE INDEX" else "INDEX".

(** [`idx_${entityName}_${fields.join('_')}`]. *)
Definition indexName (entityName : string) (fields : list string) : string :=
  "idx_" +:+ entityName +:+ "_" +:+ Js.join "_" fields.

Definition createIndexQuery (unique : bool) (entityName : string) (fields : list string)
    : string :=
  nl +:+ "        CREATE " +:+ indexType unique +:+ " " +:+ indexName entityName fields
  +:+ nl +:+ "        ON " +:+ entityName +:+ " (" +:+ Js.join ", " fields +:+ ")"
  +:+ nl +:+ "      ".

Definition dropIndexQuery (entityName indexName : string) : string :=
  nl +:+ "        DROP INDEX " +:+ indexName
  +:+ nl +:+ "        ON " +:+ entityName
  +:+ nl +:+ "      ".

(** [Array.isArray(fields) ? fields : [fields]] on a [string | string[]]. *)
Definition asArray (fields : string + list string) : list string :=
  match fields with
  | inl f => [f]
  | inr fs => fs
  end.

Section Methods.

Variable drv : Driver.

(** [index(entityName, fields, unique = false)]: an absent [unique]
    takes the default. *)
Definition index (entityName : string) (fields : string + list string)
    (unique : option bool) : M unit :=
  logMethod "index"
    (let fields := asArray fields in
     executeQuery drv (createIndexQuery (default false unique) entityName fields) [] None;;
     mret ()).

Definition dropIndex (entityName indexName : string) : M unit :=
  logMethod "dropIndex"
    (executeQuery drv (dropIndexQuery entityName indexName) [] None;; mret ()).

End Methods.

End Indexing.

Module Facade.
Import HanORM.

(** [EntityModel<T>]: the object of closures [createModel] returns. *)
Record EntityModel : Type := {
  em_create : record -> M qresult;
  em_createMany : list record -> M (list qresult);
  em_update : Z -> record -> M qresult;
  em_updateMany : list Z -> record -> M (list qresult);
  em_delete : Z -> M unit;
  em_deleteMany : list Z -> M unit;
  em_findById : Z -> option string -> M (option record);
  em_find : option record -> option string -> M qresult;
  em_join : option JoinType -> string -> string -> list string -> option (list string)
            -> M qresult;
  em_count : option record -> M value
}.

Section Methods.

Variable drv : Driver.

Definition createModel (entityName : string) (fields : EntityFields) : M EntityModel :=
  createTable drv entityName fields;;
  mret {| em_create := fun data => create drv entityName data;
          em_createMany := fun entities => createMany drv entityName entities;
          em_update := fun id data => update drv entityName id data;
          em_updateMany := fun ids data => updateMany drv entityName ids data;
          em_delete := fun id => HanORM.delete drv entityName id;
          em_deleteMany := fun ids => deleteMany drv entityName ids;
          em_findById := fun id fields => findById drv entityName id fields;
          em_find := fun conditions fields =>
            find drv entityName conditions fields None None None None;
          em_join := fun joinType table1 table2 joinConditions selectFields =>
            HanORM.join drv joinType table1 table2 joinConditions selectFields;
          em_count := fun conditions => count drv entityName conditions |}.

End Methods.

End Facade.

(** ** Concrete drivers, worlds and objects *)

Module Samples.
Import HanORM.

(** A literal formatter in the manner of the driver's. *)
Definition sampleEscape (v : value) : string :=
  match v with
  | VUndefined | VNull => "NULL"
  | VBool true => "true"
  | VBool false => "false"
  | VNum n => numToString n
  | VStr s => "'" +:+ s +:+ "'"
  end.

(** A driver that hands out connection [7] and rejects exactly the
    statements whose parameters satisfy [bad]. *)
Definition scripted (bad : list value -> bool) : Driver :=
  {| pool_getConnection := fun _ => inr 7;
     conn_beginTransaction := fun _ _ => None;
     conn_execute := fun tr _ _ params =>
       if bad params then inl (DriverError "ER_DUP_ENTRY")
       else inr (QHeader 1 (Z.of_nat (length tr)));
     conn_commit := fun _ _ => None;
     conn_rollback := fun _ _ => None;
     escape := sampleEscape |}.

(** A driver that accepts everything. *)
Definition accepting : Driver := scripted (fun _ => false).

(** A driver that rejects every statement. *)
Definition rejectingAll : Driver := scripted (fun _ => true).

(** A driver that rejects the row named ["B"]. *)
Definition rejectingB : Driver :=
  scripted (fun params =>
    match params with
    | [VStr "B"] => true
    | _ => false
    end).

(** A driver that rejects the DELETE of id [2]. *)
Definition rejecting2 : Driver :=
  scripted (fun params =>
    match params with
    | [VNum 2] => true
    | _ => false
    end).

Definition callerOptions : gmap string value :=
  <["connectionLimit" := VNum 20]>
  (<["host" := VStr "localhost"]>
  (<["user" := VStr "root"]>
  (<["password" := VStr "root"]>
  (<["database" := VStr "example-schema"]>
  (<["sync" := VBool true]>
  (<["logging" := VBool true]> ∅)))))).

Definition callerHeap : gmap ref (gmap string value) := <[0 := callerOptions]> ∅.

Definition plainInstance : instance :=
  {| connectionOptions := 0;
     sync := VBool false;
     logging := VBool false;
     pool := {| connectionLimit := VNum 10;
                host := VStr "localhost";
                user := VStr "root";
                password := VStr "root";
                database := VStr "example-schema" |};
     transactionConnection := None |}.

(** A fresh instance, idle, before any call. *)
Definition idle : world := {| self := plainInstance; trace := []; console := [] |}.

(** The same instance with connection [7] in an open transaction. *)
Definition active : world :=
  {| self := {| connectionOptions := 0;
                sync := VBool false;
                logging := VBool false;
                pool := pool plainInstance;
                transactionConnection := Some 7 |};
     trace := [EvGetConnection (inr 7); EvBeginTransaction 7 None];
     console := [] |}.

Definition nameField : FieldDefinition :=
  {| type := VARCHAR; size := Some 255%Z; unique := None; nullable := Some true;
     primary := None; autoIncrement := None; defaultValue := VNum 50;
     check := None; comment := None |}.

Definition ageField : FieldDefinition :=
  {| type := INT; size := None; unique := None; nullable := None;
     primary := None; autoIncrement := None; defaultValue := VUndefined;
     check := None; comment := None |}.

Definition emailField : FieldDefinition :=
  {| type := VARCHAR; size := Some 255%Z; unique := Some true; nullable := Some false;
     primary := None; autoIncrement := None; defaultValue := VUndefined;
     check := None; comment := None |}.

(** A driver whose pool hands out a new connection at every request:
    the number of calls made so far. *)
Definition pooled : Driver :=
  {| pool_getConnection := fun tr => inr (length tr);
     conn_beginTransaction := fun _ _ => None;
     conn_execute := fun _ _ _ _ => inr (QHeader 1 1);
     conn_commit := fun _ _ => None;
     conn_rollback := fun _ _ => None;
     escape := sampleEscape |}.

(** A driver on which BEGIN is rejected. *)
Definition noBegin : Driver :=
  {| pool_getConnection := fun _ => inr 7;
     conn_beginTransaction := fun _ _ => Some (DriverError "ER_CANT_BEGIN");
     conn_execute := fun _ _ _ _ => inr (QHeader 1 1);
     conn_commit := fun _ _ => None;
     conn_rollback := fun _ _ => None;
     escape := sampleEscape |}.

(** A driver that answers every query with the given rows. *)
Definition answering (rows : list record) : Driver :=
  {| pool_getConnection := fun _ => inr 7;
     conn_beginTransaction := fun _ _ => None;
     conn_execute := fun _ _ _ _ => inr (QRows rows);
     conn_commit := fun _ _ => None;
     conn_rollback := fun _ _ => None;
     escape := sampleEscape |}.

(** The idle instance with query logging switched on. *)
Definition verbose : world :=
  {| self := {| connectionOptions := 0;
                sync := VBool false;
                logging := VBool true;
                pool := pool plainInstance;
                transactionConnection := None |};
     trace := [];
     console := [] |}.

(** The idle instance in sync mode. *)
Definition syncing : world :=
  {| self := {| connectionOptions := 0;
                sync := VBool true;
                logging := VBool false;
                pool := pool plainInstance;
                transactionConnection := None |};
     trace := [];
     console := [] |}.

(** The instance on the [pooled] driver after [startTransaction]:
    connection [0] in an open transaction. *)
Definition activePooled : world :=
  {| self := {| connectionOptions := 0;
                sync := VBool false;
                logging := VBool false;
                pool := pool plainInstance;
                transactionConnection := Some 0 |};
     trace := [EvGetConnection (inr 0); EvBeginTransaction 0 None];
     console := [] |}.

(** A driver that rejects the row named ["B"] and then rejects the
    ROLLBACK too. *)
Definition rollbackFails : Driver :=
  {| pool_getConnection := fun _ => inr 7;
     conn_beginTransaction := fun _ _ => None;
     conn_execute := fun tr _ _ params =>
       match params with
       | [VStr "B"] => inl (DriverError "ER_DUP_ENTRY")
       | _ => inr (QHeader 1 (Z.of_nat (length tr)))
       end;
     conn_commit := fun _ _ => None;
     conn_rollback := fun _ _ => Some (DriverError "ER_CONN_LOST");
     escape := sampleEscape |}.


End Samples.

(** ** Observations on a run *)

Import HanORM.
Import Indexing.
Import Facade.
Import Samples.

(** The instance with its transaction handle set to [tc]. *)
Definition holding (tc : option conn) (i : instance) : instance :=
  {| connectionOptions := connectionOptions i;
     sync := sync i;
     logging := logging i;
     pool := pool i;
     transactionConnection := tc |}.

(** The statements handed to [connection.execute], in order. *)
Definition statements (evs : list event) : list stmt :=
  flat_map (fun e => match e with
                     | EvExecute _ sql params _ => [(sql, params)]
                     | _ => []
                     end) evs.

(** A run that throws before any statement reaches the driver. *)
Definition rejectsWithoutStatement {A : Type} (w : world) (run : outcome A * world) : Prop :=
  (exists e, fst run = Thrown e) /\ statements (added w (snd run)) = [].

(** The calls of the rows of a batch that were inserted: for each row
    its INSERT, answered by a result, and the release that follows. *)
Fixpoint inserts (c : conn) (entityName : string) (rows : list record)
    (results : list qresult) : list event :=
  match rows, results with
  | row :: rows', r :: results' =>
      EvExecute c (insertEntityQueryMany entityName (keys row)) (values row) (inr r)
      :: EvRelease c :: inserts c entityName rows' results'
  | _, _ => []
  end.

(** The calls of [connection.commit] among [evs]. *)
Definition commits (evs : list event) : nat :=
  length (List.filter (fun e => match e with EvCommit _ _ => true | _ => false end) evs).

(** The calls of [connection.rollback] among [evs]. *)
Definition rollbacks (evs : list event) : nat :=
  length (List.filter (fun e => match e with EvRollback _ _ => true | _ => false end) evs).

(** The claim of C5 in its own words: the clause is there exactly when
    both arguments are positive. *)
Definition limitExactlyWhenPositive (page pageSize : option Z) : Prop :=
  limitClause page pageSize <> ""
  <-> exists p ps, page = Some p /\ pageSize = Some ps /\ (0 < p)%Z /\ (0 < ps)%Z.

(** The calls of [pool.getConnection] that gave a connection. *)
Definition acquisitions (evs : list event) : nat :=
  length (List.filter (fun e => match e with EvGetConnection (inr _) => true | _ => false end)
            evs).

(** The calls of [connection.release] among [evs]. *)
Definition releases (evs : list event) : nat :=
  length (List.filter (fun e => match e with EvRelease _ => true | _ => false end) evs).


(** The calls that name connection [c]. *)
Definition touching (c : conn) (evs : list event) : list event :=
  List.filter (fun e => match e with
                        | EvGetConnection (inr c') => Nat.eqb c c'
                        | EvGetConnection (inl _) => false
                        | EvBeginTransaction c' _ | EvExecute c' _ _ _
                        | EvCommit c' _ | EvRollback c' _ | EvRelease c' => Nat.eqb c c'
                        end) evs.

(** The calls of the statements of a batch that were executed on the
    transaction's connection: each statement, answered by a result, and
    the release that follows. *)
Fixpoint executed (c : conn) (stmts : list stmt) (results : list qresult) : list event :=
  match stmts, results with
  | (sql, params) :: stmts', r :: results' =>
      EvExecute c sql params (inr r) :: EvRelease c :: executed c stmts' results'
  | _, _ => []
  end.

(** The UPDATE of one id of an [updateMany] batch. *)
Definition updateOf (entityName : string) (fields : record) (id : Z) : stmt :=
  (updateEntityQuery entityName (keys fields), values fields ++ [VNum id]).

(** The claim of C2 on errors, in its own words: when a row's insert is
    rejected, the run throws that row's error. *)
Definition reraisesOriginal (w : world) (run : outcome (list qresult) * world) : Prop :=
  forall c sql params e,
    In (EvExecute c sql params (inl e)) (added w (snd run)) -> fst run = Thrown e.

(** * Properties *)

Ltac run :=
  cbv [mbind mret M_bind M_ret throw tryCatch tryFinally logMethod logQuery print
       getTransactionConnection setTransactionConnection getSync getLogging
       poolGetConnection connBeginTransaction connExecute connCommit connRollback
       connRelease ofSum ofOption emit].


(** ** Running the monad *)

Lemma added_app (w w' : world) (evs : list event) :
  trace w' = trace w ++ evs -> added w w' = evs.
Proof.
  intros H. unfold added. rewrite H. apply drop_app_length.
Qed.

Lemma logMethod_spec {A : Type} (key : string) (m : M A) (w : world) :
  fst (logMethod key m w) = fst (m w)
  /\ self (snd (logMethod key m w)) = self (snd (m w))
  /\ trace (snd (logMethod key m w)) = trace (snd (m w)).
Proof.
  run. destruct (m w) as [[a | e] w1]; simpl; auto.
Qed.

Lemma logMethod_run {A : Type} (key : string) (m : M A) (w : world) :
  exists o w',
    m w = (o, w')
    /\ fst (logMethod key m w) = o
    /\ self (snd (logMethod key m w)) = self w'
    /\ trace (snd (logMethod key m w)) = trace w'.
Proof.
  destruct (logMethod_spec key m w) as (Hf & Hs & Ht).
  exists (fst (m w)), (snd (m w)). rewrite <- surjective_pairing. auto.
Qed.

(** [executeQuery] on the connection of the open transaction. *)
Lemma executeQuery_tx (drv : Driver) (q : string) (ps : list value) (c : conn) (w : world) :
  fst (executeQuery drv q ps (Some c) w) = ofSum (conn_execute drv (trace w) c q ps)
  /\ self (snd (executeQuery drv q ps (Some c) w)) = self w
  /\ trace (snd (executeQuery drv q ps (Some c) w))
     = trace w ++ [EvExecute c q ps (conn_execute drv (trace w) c q ps); EvRelease c].
Proof.
  unfold executeQuery. run.
  destruct (truthy (logging (self w))); simpl;
    destruct (conn_execute drv (trace w) c q ps); simpl;
    rewrite <- ?app_assoc; auto.
Qed.

(** [executeQuery] on a connection of its own. *)
Lemma executeQuery_pool (drv : Driver) (q : string) (ps : list value) (c : conn) (w : world) :
  pool_getConnection drv (trace w) = inr c ->
  fst (executeQuery drv q ps None w)
    = ofSum (conn_execute drv (trace w ++ [EvGetConnection (inr c)]) c q ps)
  /\ self (snd (executeQuery drv q ps None w)) = self w
  /\ trace (snd (executeQuery drv q ps None w))
     = trace w ++ [EvGetConnection (inr c);
                   EvExecute c q ps
                     (conn_execute drv (trace w ++ [EvGetConnection (inr c)]) c q ps);
                   EvRelease c].
Proof.
  intros Hc. unfold executeQuery. run.
  destruct (truthy (logging (self w))); simpl; rewrite Hc; simpl;
    destruct (conn_execute drv (trace w ++ [EvGetConnection (inr c)]) c q ps); simpl;
    rewrite <- ?app_assoc; auto.
Qed.

(** ** The transaction handle *)

(** C7. With no transaction active, [commitTransaction] and
    [rollbackTransaction] return without throwing and leave the world as
    it was: no call reaches the driver, so no COMMIT and no ROLLBACK is
    issued.  With a transaction active on connection [c], whenever either
    operation completes it has issued its one COMMIT (or ROLLBACK) on [c],
    released [c], and left the instance's handle cleared; a resolving
    driver call is enough for it to complete. *)
Theorem commit_rollback_idle_noop_and_clear (drv : Driver) (w : world) :
  (transactionConnection (self w) = None ->
     commitTransaction drv w = (Returned (), w)
     /\ rollbackTransaction drv w = (Returned (), w))
  /\ (forall c, transactionConnection (self w) = Some c ->
        (forall w', commitTransaction drv w = (Returned (), w') ->
           transactionConnection (self w') = None
           /\ added w w' = [EvCommit c None; EvRelease c])
        /\ (forall w', rollbackTransaction drv w = (Returned (), w') ->
              transactionConnection (self w') = None
              /\ added w w' = [EvRollback c None; EvRelease c])
        /\ (conn_commit drv (trace w) c = None ->
              commitTransaction drv w
              = (Returned (),
                 {| self := holding None (self w);
                    trace := trace w ++ [EvCommit c None; EvRelease c];
                    console := console w |}))
        /\ (conn_rollback drv (trace w) c = None ->
              rollbackTransaction drv w
              = (Returned (),
                 {| self := holding None (self w);
                    trace := trace w ++ [EvRollback c None; EvRelease c];
                    console := console w |}))).
Proof.
  split.
  - intros Hidle. unfold commitTransaction, rollbackTransaction. run.
    rewrite Hidle. auto.
  - intros c Hact. unfold commitTransaction, rollbackTransaction. run.
    rewrite Hact. simpl.
    destruct (conn_commit drv (trace w) c) eqn:Hc;
      destruct (conn_rollback drv (trace w) c) eqn:Hr; simpl;
      repeat split; intros; try discriminate;
      repeat match goal with
      | H : (_, _) = (_, _) |- _ => inversion H; subst; clear H
      end; simpl; rewrite <- ?app_assoc; auto;
      try (apply added_app; simpl; rewrite <- ?app_assoc; reflexivity).
Qed.

Lemma commit_rollback_idle_noop_and_clear_witness :
  (commitTransaction accepting idle = (Returned (), idle)
   /\ rollbackTransaction accepting idle = (Returned (), idle))
  /\ transactionConnection (self (snd (commitTransaction accepting active))) = None
  /\ transactionConnection (self (snd (rollbackTransaction accepting active))) = None.
Proof.
  destruct (commit_rollback_idle_noop_and_clear accepting idle) as [Hidle _].
  destruct (commit_rollback_idle_noop_and_clear accepting active) as [_ Hact].
  destruct (Hact 7 eq_refl) as (_ & _ & Hc & Hr).
  split; [apply Hidle; reflexivity |].
  rewrite (Hc eq_refl), (Hr eq_refl). split; reflexivity.
Defined.

(** ** Construction *)

(** C10. Constructing an instance from the options object at [r] keeps
    that very object as [connectionOptions] and deletes its [sync] and
    [logging] keys in the caller's heap; every other key of the object
    (host, user, password, database, connectionLimit among them) and
    every other object of the heap is as before; the two deleted values
    live on in the instance's own [sync] and [logging] fields. *)
Theorem constructor_strips_caller_options
    (h : gmap ref (gmap string value)) (r : ref) (o : gmap string value) :
  h !! r = Some o ->
  exists (inst : instance) (o' : gmap string value),
    constructor h r = Some (inst, <[r := o']> h)
    /\ connectionOptions inst = r
    /\ o' !! "sync" = None
    /\ o' !! "logging" = None
    /\ (forall k, k <> "sync" -> k <> "logging" -> o' !! k = o !! k)
    /\ (forall r', r' <> r -> (<[r := o']> h) !! r' = h !! r')
    /\ sync inst = nullish (prop o "sync") (VBool false)
    /\ logging inst = nullish (prop o "logging") (VBool false).
Proof.
  intros Hr. unfold constructor. rewrite Hr.
  eexists _, (base.delete "logging" (base.delete "sync" o)).
  split; [reflexivity |]. simpl.
  split; [reflexivity |].
  split; [rewrite lookup_delete_ne by discriminate; apply lookup_delete_eq |].
  split; [apply lookup_delete_eq |].
  split.
  - intros k Hs Hl. rewrite !lookup_delete_ne by congruence. reflexivity.
  - split; [| split; reflexivity].
    intros r' Hne. apply lookup_insert_ne. congruence.
Qed.

Lemma constructor_strips_caller_options_witness :
  exists (inst : instance) (o' : gmap string value),
    constructor callerHeap 0 = Some (inst, <[0 := o']> callerHeap)
    /\ connectionOptions inst = 0
    /\ o' !! "sync" = None
    /\ o' !! "logging" = None
    /\ (forall k, k <> "sync" -> k <> "logging" -> o' !! k = callerOptions !! k)
    /\ (forall r', r' <> 0 -> (<[0 := o']> callerHeap) !! r' = callerHeap !! r')
    /\ sync inst = nullish (prop callerOptions "sync") (VBool false)
    /\ logging inst = nullish (prop callerOptions "logging") (VBool false).
Proof.
  apply (constructor_strips_caller_options callerHeap 0 callerOptions).
  reflexivity.
Defined.

(** ** Texts *)

Lemma append_cons (c : ascii) (a b : string) : String c a +:+ b = String c (a +:+ b).
Proof. reflexivity. Qed.

Lemma countChar_app (c : ascii) (a b : string) :
  countChar c (a +:+ b) = countChar c a + countChar c b.
Proof.
  induction a as [| d a IH]; [reflexivity |].
  rewrite append_cons. simpl. rewrite IH. lia.
Qed.

Lemma join_cons2 (sep x y : string) (l : list string) :
  Js.join sep (x :: y :: l) = x +:+ sep +:+ Js.join sep (y :: l).
Proof. reflexivity. Qed.

Lemma map_const_repeat {A B : Type} (b : B) (l : list A) :
  map (fun _ => b) l = repeat b (length l).
Proof. induction l; simpl; congruence. Qed.

Lemma countChar_placeholders (n : nat) :
  countChar "?" (Js.join ", " (repeat "?" n)) = n.
Proof.
  induction n as [| n IH]; [reflexivity |].
  destruct n as [| n]; [reflexivity |].
  change (repeat "?" (S (S n))) with ("?" :: "?" :: repeat "?" n).
  rewrite join_cons2, !countChar_app.
  change ("?" :: repeat "?" n) with (repeat "?" (S n)).
  rewrite IH. reflexivity.
Qed.

Lemma countChar_join_none (c : ascii) (sep : string) (l : list string) :
  countChar c sep = 0 ->
  Forall (fun k => countChar c k = 0) l ->
  countChar c (Js.join sep l) = 0.
Proof.
  intros Hsep Hl. induction Hl as [| x l Hx Hl IH]; [reflexivity |].
  destruct l as [| y l]; [exact Hx |].
  rewrite join_cons2, !countChar_app, Hx, Hsep, IH. reflexivity.
Qed.

(** C3. [create] hands the driver one statement: the INSERT whose column
    list is the field names in the map's iteration order joined by
    [", "], whose VALUES list is one [?] per field, and whose parameter
    list is the field values in that same order.  The VALUES list holds
    exactly as many [?] as there are fields, and so does the whole text
    when no name contains a [?]. *)
Theorem create_builds_parameterized_insert
    (drv : Driver) (entityName : string) (fields : record) (w : world) (c : conn) :
  pool_getConnection drv (trace w) = inr c ->
  let placeholders := Js.join ", " (repeat "?" (length fields)) in
  let sql :=
    nl +:+ "      INSERT INTO " +:+ entityName +:+ " (" +:+ Js.join ", " (map fst fields) +:+ ")"
    +:+ nl +:+ "      VALUES (" +:+ placeholders +:+ ")"
    +:+ nl +:+ "    " in
  (exists r,
     added w (snd (create drv entityName fields w))
       = [EvGetConnection (inr c); EvExecute c sql (map snd fields) r; EvRelease c]
     /\ fst (create drv entityName fields w) = ofSum r)
  /\ countChar "?" placeholders = length fields
  /\ (countChar "?" entityName = 0 ->
      Forall (fun k => countChar "?" k = 0) (map fst fields) ->
      countChar "?" sql = length fields).
Proof.
  intros Hc placeholders sql. split; [| split].
  - destruct (logMethod_spec "create"
               (executeQuery drv (insertEntityQuery entityName (keys fields))
                  (values fields) None) w) as (Hf & _ & Ht).
    destruct (executeQuery_pool drv (insertEntityQuery entityName (keys fields))
                (values fields) c w Hc) as (Hf' & _ & Ht').
    eexists. split.
    + apply added_app. unfold create. rewrite Ht, Ht'.
      unfold insertEntityQuery, keys, values. rewrite map_const_repeat, length_map.
      reflexivity.
    + unfold create. rewrite Hf, Hf'.
      unfold insertEntityQuery, keys, values. rewrite map_const_repeat, length_map.
      reflexivity.
  - apply countChar_placeholders.
  - intros Hn Hk. unfold sql, placeholders.
    rewrite !countChar_app, countChar_placeholders, Hn.
    rewrite (countChar_join_none "?" ", " (map fst fields) eq_refl Hk).
    simpl. lia.
Qed.

Lemma create_builds_parameterized_insert_witness :
  (exists r,
     added idle (snd (create accepting "users" [("name", VStr "A"); ("age", VNum 33)] idle))
       = [EvGetConnection (inr 7);
          EvExecute 7
            (nl +:+ "      INSERT INTO users (name, age)"
             +:+ nl +:+ "      VALUES (?, ?)" +:+ nl +:+ "    ")
            [VStr "A"; VNum 33] r;
          EvRelease 7]
     /\ fst (create accepting "users" [("name", VStr "A"); ("age", VNum 33)] idle) = ofSum r)
  /\ countChar "?" (Js.join ", " (repeat "?" 2)) = 2.
Proof.
  destruct (create_builds_parameterized_insert accepting "users"
              [("name", VStr "A"); ("age", VNum 33)] idle 7 eq_refl) as (H1 & H2 & _).
  split; [exact H1 | exact H2].
Defined.

(** C4, as stated, fails: with an empty field map [create] still hands
    a statement to the driver.  When the driver accepts it, [create]
    returns; when the driver rejects it, what is thrown is the driver's
    error, after the statement was sent. *)
Lemma create_empty_not_rejected :
  ~ rejectsWithoutStatement idle (create accepting "users" [] idle)
  /\ ~ rejectsWithoutStatement idle (create rejectingAll "users" [] idle).
Proof.
  split.
  - intros [[e He] _]. vm_compute in He. discriminate He.
  - intros [_ Hs]. vm_compute in Hs. discriminate Hs.
Qed.

(** C4, amended. [create] has no check of its own for an empty field
    map: it builds the INSERT with an empty column list and an empty
    VALUES list, hands it to the driver with no parameters, and returns
    or throws exactly what the driver's [execute] answers. *)
Theorem create_empty_submits_statement
    (drv : Driver) (entityName : string) (w : world) (c : conn) :
  pool_getConnection drv (trace w) = inr c ->
  let sql :=
    nl +:+ "      INSERT INTO " +:+ entityName +:+ " ()"
    +:+ nl +:+ "      VALUES ()" +:+ nl +:+ "    " in
  let r := conn_execute drv (trace w ++ [EvGetConnection (inr c)]) c sql [] in
  added w (snd (create drv entityName [] w))
    = [EvGetConnection (inr c); EvExecute c sql [] r; EvRelease c]
  /\ fst (create drv entityName [] w) = ofSum r.
Proof.
  intros Hc sql r.
  destruct (logMethod_spec "create"
              (executeQuery drv (insertEntityQuery entityName (keys [])) (values []) None) w)
    as (Hf & _ & Ht).
  destruct (executeQuery_pool drv (insertEntityQuery entityName (keys [])) (values []) c w Hc)
    as (Hf' & _ & Ht').
  split.
  - apply added_app. unfold create. rewrite Ht, Ht'. reflexivity.
  - unfold create. rewrite Hf, Hf'. reflexivity.
Qed.

Lemma create_empty_submits_statement_witness :
  statements (added idle (snd (create accepting "users" [] idle)))
    = [(nl +:+ "      INSERT INTO users ()" +:+ nl +:+ "      VALUES ()" +:+ nl +:+ "    ", [])]
  /\ fst (create accepting "users" [] idle) = Returned (QHeader 1 1).
Proof.
  destruct (create_empty_submits_statement accepting "users" idle 7 eq_refl) as [Ht Hf].
  split; [rewrite Ht; reflexivity | rewrite Hf; reflexivity].
Defined.

(** C6, as stated, fails: with an empty list of join conditions [join]
    still hands a statement to the driver.  When the driver accepts it,
    [join] returns; when the driver rejects it, what is thrown is the
    driver's error, after the statement was sent. *)
Lemma join_empty_not_rejected :
  ~ rejectsWithoutStatement idle
      (HanORM.join accepting (Some INNER) "users" "posts" [] None idle)
  /\ ~ rejectsWithoutStatement idle
        (HanORM.join rejectingAll (Some INNER) "users" "posts" [] None idle).
Proof.
  split.
  - intros [[e He] _]. vm_compute in He. discriminate He.
  - intros [_ Hs]. vm_compute in Hs. discriminate Hs.
Qed.

(** C6, amended. [join] has no check of its own for an empty list of
    conditions.  For every list, empty or not, it hands the driver the
    statement that selects the given fields joined by [", "] (or [*] when
    none are given) from [table1], joined to [table2] by the join type
    (INNER when none is given), ON the conditions joined by [" AND "] --
    an empty ON clause for the empty list -- and it returns or throws
    exactly what the driver's [execute] answers. *)
Theorem join_submits_statement
    (drv : Driver) (joinType : option JoinType) (table1 table2 : string)
    (joinConditions : list string) (selectFields : option (list string))
    (w : world) (c : conn) :
  pool_getConnection drv (trace w) = inr c ->
  let sql :=
    nl +:+ "      SELECT " +:+ match selectFields with
                                | Some fs => Js.join ", " fs
                                | None => "*"
                                end
    +:+ nl +:+ "      FROM " +:+ table1
    +:+ nl +:+ "      " +:+ joinTypeClause (default INNER joinType) +:+ " JOIN " +:+ table2
    +:+ " ON " +:+ Js.join " AND " joinConditions
    +:+ nl +:+ "    " in
  let r := conn_execute drv (trace w ++ [EvGetConnection (inr c)]) c sql [] in
  added w (snd (HanORM.join drv joinType table1 table2 joinConditions selectFields w))
    = [EvGetConnection (inr c); EvExecute c sql [] r; EvRelease c]
  /\ fst (HanORM.join drv joinType table1 table2 joinConditions selectFields w) = ofSum r.
Proof.
  intros Hc sql r.
  set (q := joinQuery (default INNER joinType) table1 table2 joinConditions selectFields).
  destruct (logMethod_spec "join" (executeQuery drv q [] None) w) as (Hf & _ & Ht).
  destruct (executeQuery_pool drv q [] c w Hc) as (Hf' & _ & Ht').
  split.
  - apply added_app. unfold HanORM.join. fold q. rewrite Ht, Ht'. reflexivity.
  - unfold HanORM.join. fold q. rewrite Hf, Hf'. reflexivity.
Qed.

Lemma join_submits_statement_witness :
  statements (added idle
    (snd (HanORM.join accepting (Some LEFT) "users" "posts"
            ["users.id = posts.user_id"; "posts.live = 1"] (Some ["users.id"; "posts.title"])
            idle)))
    = [(nl +:+ "      SELECT users.id, posts.title"
        +:+ nl +:+ "      FROM users"
        +:+ nl +:+ "      LEFT JOIN posts ON users.id = posts.user_id AND posts.live = 1"
        +:+ nl +:+ "    ", [])]
  /\ statements (added idle
       (snd (HanORM.join accepting None "users" "posts" [] None idle)))
     = [(nl +:+ "      SELECT *"
         +:+ nl +:+ "      FROM users"
         +:+ nl +:+ "      INNER JOIN posts ON "
         +:+ nl +:+ "    ", [])].
Proof.
  split.
  - destruct (join_submits_statement accepting (Some LEFT) "users" "posts"
                ["users.id = posts.user_id"; "posts.live = 1"]
                (Some ["users.id"; "posts.title"]) idle 7 eq_refl) as [Ht _].
    rewrite Ht. reflexivity.
  - destruct (join_submits_statement accepting None "users" "posts" [] None idle 7 eq_refl)
      as [Ht _].
    rewrite Ht. reflexivity.
Defined.

Lemma append_assoc (a b c : string) : (a +:+ b) +:+ c = a +:+ (b +:+ c).
Proof.
  induction a as [| d a IH]; [reflexivity |].
  rewrite !append_cons, IH. reflexivity.
Qed.

Lemma append_empty_r (a : string) : a +:+ "" = a.
Proof.
  induction a as [| d a IH]; [reflexivity |].
  rewrite append_cons, IH. reflexivity.
Qed.

Lemma occursIn_refl (x : string) : occursIn x x.
Proof. exists "", "". rewrite append_empty_r. reflexivity. Qed.

Lemma occursIn_context (x text a b : string) :
  occursIn x text -> occursIn x (a +:+ text +:+ b).
Proof.
  intros (pre & post & ->). exists (a +:+ pre), (post +:+ b).
  rewrite !append_assoc. reflexivity.
Qed.

Lemma occursIn_prefixed (x text a : string) : occursIn x text -> occursIn x (a +:+ text).
Proof.
  intros H. rewrite <- (append_empty_r text). apply occursIn_context, H.
Qed.

Lemma occursIn_suffixed (x text b : string) : occursIn x text -> occursIn x (text +:+ b).
Proof. intros H. apply (occursIn_context x text "" b H). Qed.

Lemma occursIn_join (sep x : string) (l : list string) :
  In x l -> occursIn x (Js.join sep l).
Proof.
  induction l as [| y l IH]; [intros [] |].
  intros [-> | Hin].
  - destruct l as [| z l]; [apply occursIn_refl |].
    rewrite join_cons2. exists "", (sep +:+ Js.join sep (z :: l)). reflexivity.
  - destruct l as [| z l]; [destruct Hin |].
    rewrite join_cons2. do 2 apply occursIn_prefixed. apply IH, Hin.
Qed.

(** One statement sent on a connection of its own, under [logMethod]. *)
Lemma logged_query (drv : Driver) (key q : string) (ps : list value) (c : conn) (w : world) :
  pool_getConnection drv (trace w) = inr c ->
  let r := conn_execute drv (trace w ++ [EvGetConnection (inr c)]) c q ps in
  added w (snd (logMethod key (executeQuery drv q ps None) w))
    = [EvGetConnection (inr c); EvExecute c q ps r; EvRelease c]
  /\ fst (logMethod key (executeQuery drv q ps None) w) = ofSum r.
Proof.
  intros Hc r.
  destruct (logMethod_spec key (executeQuery drv q ps None) w) as (Hf & _ & Ht).
  destruct (executeQuery_pool drv q ps c w Hc) as (Hf' & _ & Ht').
  split; [apply added_app; rewrite Ht, Ht' | rewrite Hf, Hf']; reflexivity.
Qed.

(** The same when the method maps the result before returning it. *)
Lemma logged_query_then {A : Type} (drv : Driver) (key q : string) (ps : list value)
    (g : qresult -> A) (c : conn) (w : world) :
  pool_getConnection drv (trace w) = inr c ->
  let r := conn_execute drv (trace w ++ [EvGetConnection (inr c)]) c q ps in
  added w (snd (logMethod key (x ← executeQuery drv q ps None; mret (g x)) w))
    = [EvGetConnection (inr c); EvExecute c q ps r; EvRelease c].
Proof.
  intros Hc r.
  destruct (logMethod_spec key (x ← executeQuery drv q ps None; mret (g x)) w) as (_ & _ & Ht).
  destruct (executeQuery_pool drv q ps c w Hc) as (_ & _ & Ht').
  apply added_app. rewrite Ht. cbv [mbind M_bind mret M_ret].
  destruct (executeQuery drv q ps None w) as [[a | e] w1]; exact Ht'.
Qed.

Lemma condition_occurs (esc : value -> string) (conds : record) (k : string) (v : value) :
  In (k, v) conds ->
  occursIn (k +:+ " = " +:+ esc v) (conditionString esc (Some conds)).
Proof.
  intros Hin. unfold conditionString, entries.
  apply occursIn_prefixed, occursIn_join.
  apply (in_map (fun kv => fst kv +:+ " = " +:+ esc (snd kv)) conds (k, v) Hin).
Qed.

(** C8. [create], [update] and [delete] each hand the driver one
    statement whose text is built from the table name and the field names
    alone, with a [?] where a value belongs, and whose parameter list
    carries the row values (and the id): two calls that differ only in the
    values send the same text.  [find] and [count] send no parameters:
    for every condition [k: v] the text itself contains [k = escape(v)],
    the value rendered as a literal by the driver's [escape]. *)
Theorem values_bound_in_writes_escaped_in_reads (drv : Driver) (w : world) (c : conn) :
  pool_getConnection drv (trace w) = inr c ->
  (forall entityName fields,
     statements (added w (snd (create drv entityName fields w)))
     = [(insertEntityQuery entityName (map fst fields), map snd fields)])
  /\ (forall entityName id fields,
        statements (added w (snd (update drv entityName id fields w)))
        = [(updateEntityQuery entityName (map fst fields), map snd fields ++ [VNum id])])
  /\ (forall entityName id,
        statements (added w (snd (HanORM.delete drv entityName id w)))
        = [(deleteEntityQuery entityName, [VNum id])])
  /\ (forall entityName fields fields',
        map fst fields = map fst fields' ->
        map fst (statements (added w (snd (create drv entityName fields w))))
        = map fst (statements (added w (snd (create drv entityName fields' w)))))
  /\ (forall entityName id id' fields fields',
        map fst fields = map fst fields' ->
        map fst (statements (added w (snd (update drv entityName id fields w))))
        = map fst (statements (added w (snd (update drv entityName id' fields' w)))))
  /\ (forall entityName id id',
        map fst (statements (added w (snd (HanORM.delete drv entityName id w))))
        = map fst (statements (added w (snd (HanORM.delete drv entityName id' w)))))
  /\ (forall entityName conditions fields page pageSize sortBy sortOrder,
        exists text,
          statements (added w (snd (find drv entityName (Some conditions) fields
                                      page pageSize sortBy sortOrder w)))
          = [(text, [])]
          /\ forall k v, In (k, v) conditions ->
               occursIn (k +:+ " = " +:+ escape drv v) text)
  /\ (forall entityName conditions,
        exists text,
          statements (added w (snd (count drv entityName (Some conditions) w))) = [(text, [])]
          /\ forall k v, In (k, v) conditions ->
               occursIn (k +:+ " = " +:+ escape drv v) text).
Proof.
  intros Hc.
  assert (Hcreate : forall entityName fields,
     statements (added w (snd (create drv entityName fields w)))
     = [(insertEntityQuery entityName (map fst fields), map snd fields)]).
  { intros n F. unfold create.
    destruct (logged_query drv "create" (insertEntityQuery n (keys F)) (values F) c w Hc)
      as [Ht _].
    rewrite Ht. reflexivity. }
  assert (Hupdate : forall entityName id fields,
     statements (added w (snd (update drv entityName id fields w)))
     = [(updateEntityQuery entityName (map fst fields), map snd fields ++ [VNum id])]).
  { intros n id F. unfold update.
    destruct (logged_query drv "update" (updateEntityQuery n (keys F))
                (values F ++ [VNum id]) c w Hc) as [Ht _].
    rewrite Ht. reflexivity. }
  assert (Hdelete : forall entityName id,
     statements (added w (snd (HanORM.delete drv entityName id w)))
     = [(deleteEntityQuery entityName, [VNum id])]).
  { intros n id. unfold HanORM.delete.
    rewrite (logged_query_then drv "delete" (deleteEntityQuery n) [VNum id]
               (fun _ => ()) c w Hc).
    reflexivity. }
  repeat split.
  - exact Hcreate.
  - exact Hupdate.
  - exact Hdelete.
  - intros n F F' HF. rewrite !Hcreate, HF. reflexivity.
  - intros n id id' F F' HF. rewrite !Hupdate, HF. reflexivity.
  - intros n id id'. rewrite !Hdelete. reflexivity.
  - intros n conds fields page pageSize sortBy sortOrder. eexists. split.
    + unfold find.
      match goal with
      | |- context [executeQuery drv ?q [] None] =>
          destruct (logged_query drv "find" q [] c w Hc) as [Ht _]
      end.
      rewrite Ht. reflexivity.
    + intros k v Hin. unfold selectEntitiesQuery.
      do 8 apply occursIn_prefixed. apply occursIn_suffixed.
      apply condition_occurs, Hin.
  - intros n conds. eexists. split.
    + unfold count.
      rewrite (logged_query_then drv "count"
                 (countQuery n (conditionString (escape drv) (Some conds))) []
                 (countOf) c w Hc).
      reflexivity.
    + intros k v Hin. unfold countQuery.
      do 3 apply occursIn_prefixed. apply condition_occurs, Hin.
Qed.

Lemma values_bound_in_writes_escaped_in_reads_witness :
  statements (added idle (snd (create accepting "users" [("name", VStr "O'Hara")] idle)))
    = [(nl +:+ "      INSERT INTO users (name)" +:+ nl +:+ "      VALUES (?)" +:+ nl +:+ "    ",
        [VStr "O'Hara"])]
  /\ statements (added idle (snd (update accepting "users" 4 [("name", VStr "O'Hara")] idle)))
     = [(nl +:+ "      UPDATE users" +:+ nl +:+ "      SET name = ?"
         +:+ nl +:+ "      WHERE id = ?" +:+ nl +:+ "    ",
         [VStr "O'Hara"; VNum 4])]
  /\ statements (added idle (snd (HanORM.delete accepting "users" 4 idle)))
     = [("DELETE FROM users WHERE id = ?", [VNum 4])]
  /\ exists text,
       statements (added idle (snd (count accepting "users" (Some [("age", VNum 26)]) idle)))
       = [(text, [])]
       /\ occursIn "age = 26" text.
Proof.
  destruct (values_bound_in_writes_escaped_in_reads accepting idle 7 eq_refl)
    as (Hcreate & Hupdate & Hdelete & _ & _ & _ & _ & Hcount).
  split; [rewrite Hcreate; reflexivity |].
  split; [rewrite Hupdate; reflexivity |].
  split; [rewrite Hdelete; reflexivity |].
  destruct (Hcount "users" [("age", VNum 26)]) as (text & Ht & Hocc).
  exists text. split; [exact Ht |].
  apply (Hocc "age" (VNum 26)). left. reflexivity.
Defined.

(** ** Pagination *)

(** C5, as stated, fails: a negative page with a positive page size still
    gets a clause, here [LIMIT 10 OFFSET -20]. *)
Lemma limit_emitted_for_negative_page :
  limitClause (Some (-1)%Z) (Some 10%Z) = "LIMIT 10 OFFSET -20"
  /\ ~ limitExactlyWhenPositive (Some (-1)%Z) (Some 10%Z).
Proof.
  split; [reflexivity |].
  intros [H _].
  destruct H as (p & ps & Hp & _ & Hpos & _); [vm_compute; discriminate |].
  inversion Hp; subst. lia.
Qed.

Lemma limitClause_nonzero (p ps : Z) :
  p <> 0%Z -> ps <> 0%Z ->
  limitClause (Some p) (Some ps)
  = "LIMIT " +:+ numToString ps +:+ " OFFSET "
    +:+ printNumber (mulNumber (subNumber (toNumber p) (toNumber 1)) (toNumber ps)).
Proof.
  intros Hp Hps. unfold limitClause, truthyNum.
  destruct (Z.eqb_spec ps 0); [contradiction |].
  destruct (Z.eqb_spec p 0); [contradiction |].
  reflexivity.
Qed.

Lemma toNumber_exact (z : Z) : exactInteger z -> toNumber z = Finite z.
Proof.
  unfold exactInteger. intros Hz. unfold toNumber, roundToDouble.
  assert (Hle : (Z.abs z <=? exactLimit)%Z = true) by (apply Z.leb_le; exact Hz).
  rewrite Hle.
  assert (Hlim : (exactLimit < overflowLimit)%Z) by (apply Z.ltb_lt; vm_compute; reflexivity).
  assert (Hgt : (overflowLimit <=? Z.abs z)%Z = false) by (apply Z.leb_gt; lia).
  rewrite Hgt. reflexivity.
Qed.

Lemma numToString_exact (z : Z) : exactInteger z -> numToString z = pretty z.
Proof.
  intros Hz. unfold numToString. rewrite (toNumber_exact z Hz). simpl.
  unfold printFinite.
  assert (Hle : (Z.abs z <=? exactLimit)%Z = true) by (apply Z.leb_le; exact Hz).
  rewrite Hle. reflexivity.
Qed.

(** Within the exact range the offset is the integer product. *)
Lemma offset_exact (p ps : Z) :
  exactInteger p -> exactInteger (p - 1) -> exactInteger ps -> exactInteger ((p - 1) * ps) ->
  printNumber (mulNumber (subNumber (toNumber p) (toNumber 1)) (toNumber ps))
  = pretty ((p - 1) * ps)%Z.
Proof.
  intros Hp Hp1 Hps Hprod.
  rewrite (toNumber_exact p Hp), (toNumber_exact ps Hps).
  assert (H1 : toNumber 1 = Finite 1) by reflexivity.
  rewrite H1. unfold subNumber. rewrite (toNumber_exact _ Hp1).
  unfold mulNumber. rewrite <- (numToString_exact _ Hprod). reflexivity.
Qed.

Lemma limitClause_empty (page pageSize : option Z) :
  page = None \/ page = Some 0%Z \/ pageSize = None \/ pageSize = Some 0%Z ->
  limitClause page pageSize = "".
Proof.
  intros H. unfold limitClause, truthyNum.
  destruct page as [p |], pageSize as [ps |]; try reflexivity.
  destruct H as [H | [H | [H | H]]]; try discriminate H; inversion H; subst.
  - destruct (ps =? 0)%Z; reflexivity.
  - reflexivity.
Qed.

(** C5, amended. [find] hands the driver the SELECT text whose last
    line is the limit clause.  For integer-valued arguments that clause is
    non-empty exactly when [page] and [pageSize] are both given and both
    non-zero, and it then reads [LIMIT pageSize OFFSET (page-1)*pageSize],
    the offset computed and printed as the language computes and prints
    Numbers; as long as [page], [page-1], [pageSize] and the product stay
    within 2^53 in magnitude, that is the plain decimal of the integer
    product.  Page 1 of size 10 gives OFFSET 0 and page 2 of size 10
    gives OFFSET 10.  When either argument is absent (or zero) the clause
    is the empty text: no [LIMIT] keyword is written. *)
Theorem find_limit_clause
    (drv : Driver) (entityName : string) (conditions : option record) (fields : option string)
    (page pageSize : option Z) (sortBy : option string) (sortOrder : option SortOrder)
    (w : world) (c : conn) :
  pool_getConnection drv (trace w) = inr c ->
  exists clause,
    statements (added w (snd (find drv entityName conditions fields page pageSize
                                sortBy sortOrder w)))
    = [(nl +:+ "        SELECT " +:+ selectList fields
        +:+ nl +:+ "        FROM " +:+ entityName
        +:+ nl +:+ "        " +:+ conditionString (escape drv) conditions
        +:+ nl +:+ "        " +:+ orderByClause sortBy sortOrder
        +:+ nl +:+ "        " +:+ clause
        +:+ nl +:+ "      ", [])]
    /\ clause = limitClause page pageSize
    /\ (clause <> ""
        <-> exists p ps, page = Some p /\ pageSize = Some ps /\ p <> 0%Z /\ ps <> 0%Z)
    /\ (forall p ps, page = Some p -> pageSize = Some ps -> p <> 0%Z -> ps <> 0%Z ->
          clause = "LIMIT " +:+ numToString ps +:+ " OFFSET "
                   +:+ printNumber (mulNumber (subNumber (toNumber p) (toNumber 1))
                                      (toNumber ps))
          /\ (exactInteger p -> exactInteger (p - 1) -> exactInteger ps ->
              exactInteger ((p - 1) * ps) ->
              clause = "LIMIT " +:+ pretty ps +:+ " OFFSET " +:+ pretty ((p - 1) * ps)%Z))
    /\ (page = None \/ pageSize = None -> clause = "")
    /\ limitClause (Some 1%Z) (Some 10%Z) = "LIMIT 10 OFFSET 0"
    /\ limitClause (Some 2%Z) (Some 10%Z) = "LIMIT 10 OFFSET 10".
Proof.
  intros Hc. exists (limitClause page pageSize).
  split.
  { unfold find.
    match goal with
    | |- context [executeQuery drv ?q [] None] =>
        destruct (logged_query drv "find" q [] c w Hc) as [Ht _]
    end.
    rewrite Ht. reflexivity. }
  split; [reflexivity |].
  split.
  { split.
    - intros Hne. destruct page as [p |]; [| exfalso; apply Hne, limitClause_empty; auto].
      destruct pageSize as [ps |]; [| exfalso; apply Hne, limitClause_empty; auto].
      exists p, ps. repeat split.
      + intros ->. apply Hne, limitClause_empty. auto.
      + intros ->. apply Hne, limitClause_empty. auto.
    - intros (p & ps & -> & -> & Hp & Hps). rewrite (limitClause_nonzero p ps Hp Hps).
      discriminate. }
  split.
  { intros p ps -> -> Hp Hps. rewrite (limitClause_nonzero p ps Hp Hps).
    split; [reflexivity |].
    intros Ep Ep1 Eps Eprod.
    rewrite (numToString_exact ps Eps), (offset_exact p ps Ep Ep1 Eps Eprod). reflexivity. }
  split.
  { intros [-> | ->]; apply limitClause_empty; auto. }
  split; reflexivity.
Qed.

Lemma find_limit_clause_witness :
  statements (added idle (snd (find accepting "users" None (Some "id, name")
                                 (Some 2%Z) (Some 10%Z) (Some "created_at") (Some desc) idle)))
  = [(nl +:+ "        SELECT id, name"
      +:+ nl +:+ "        FROM users"
      +:+ nl +:+ "        "
      +:+ nl +:+ "        ORDER BY created_at DESC"
      +:+ nl +:+ "        LIMIT 10 OFFSET 10"
      +:+ nl +:+ "      ", [])]
  /\ limitClause (Some 2%Z) (Some 10%Z)
     = "LIMIT " +:+ pretty 10%Z +:+ " OFFSET " +:+ pretty ((2 - 1) * 10)%Z.
Proof.
  destruct (find_limit_clause accepting "users" None (Some "id, name")
              (Some 2%Z) (Some 10%Z) (Some "created_at") (Some desc) idle 7 eq_refl)
    as (clause & Ht & Hclause & _ & Hform & _).
  split.
  - rewrite Ht, Hclause. reflexivity.
  - rewrite <- Hclause.
    destruct (Hform 2%Z 10%Z eq_refl eq_refl) as (_ & Hexact); try discriminate.
    apply Hexact; unfold exactInteger, exactLimit; simpl; lia.
Defined.

(** Beyond 2^53 the offset is the product as a double: page
    3002399751580332 of size 3 has the odd product 9007199254740993,
    which rounds to the even double below it. *)
Example limit_offset_rounds_to_double :
  limitClause (Some 3002399751580332%Z) (Some 3%Z) = "LIMIT 3 OFFSET 9007199254740992"
  /\ limitClause (Some 2%Z) (Some (10 ^ 21)%Z) = "LIMIT 1e+21 OFFSET 1e+21"
  /\ limitClause (Some 3%Z) (Some (2 ^ 62)%Z)
     = "LIMIT 4611686018427388000 OFFSET 9223372036854776000".
Proof. repeat split; vm_compute; reflexivity. Qed.

(** ** Table creation *)

(** [executeQuery] on a connection of its own, whatever the pool answers:
    the trace only grows, and a run that returns has executed its
    statement. *)
Lemma executeQuery_pool_any (drv : Driver) (q : string) (ps : list value) (w : world) :
  exists evs,
    trace (snd (executeQuery drv q ps None w)) = trace w ++ evs
    /\ forall a, fst (executeQuery drv q ps None w) = Returned a ->
         exists c, evs = [EvGetConnection (inr c); EvExecute c q ps (inr a); EvRelease c].
Proof.
  destruct (pool_getConnection drv (trace w)) as [e | c] eqn:Hc.
  - exists [EvGetConnection (inl e)]. unfold executeQuery. run.
    destruct (truthy (logging (self w))); simpl; rewrite Hc; simpl;
      (split; [reflexivity | intros a Ha; discriminate Ha]).
  - destruct (executeQuery_pool drv q ps c w Hc) as (Hf & _ & Ht).
    eexists. split; [exact Ht |].
    intros a Ha. exists c. rewrite Hf in Ha.
    destruct (conn_execute drv (trace w ++ [EvGetConnection (inr c)]) c q ps) as [e | a'];
      simpl in Ha; [discriminate Ha |].
    inversion Ha; subst. reflexivity.
Qed.

Ltac constraint_cases H :=
  repeat (destruct H as [H | H]; [try discriminate H; try reflexivity |]);
  try contradiction; try reflexivity.

Lemma constraints_null_iff (field : FieldDefinition) :
  (In "NULL" (constraints field) <-> nullable field = Some true)
  /\ (In "NOT NULL" (constraints field) <-> nullable field = None).
Proof.
  unfold constraints, pushIf.
  destruct (truthyBool (unique field)), (truthyBool (primary field)),
    (nullable field) as [[|] |], (truthyBool (autoIncrement field)),
    (isDefined (defaultValue field)), (truthyStr (check field)),
    (truthyStr (comment field)); simpl;
    (split; split; intros H;
     [ constraint_cases H | try discriminate H; auto 12
     | constraint_cases H | try discriminate H; auto 12 ]).
Qed.

(** C9. The constraints of a column clause follow [nullable] in three
    ways: [true] puts [NULL] and not [NOT NULL]; an absent [nullable] puts
    [NOT NULL] and not [NULL]; an explicit [false] puts neither.  The
    clause is the name, the type with its size, and the constraints
    joined by blanks.  Whenever [createTable] returns, the last statement
    it executed is the CREATE TABLE text whose first column is the
    injected [id INT AUTO_INCREMENT PRIMARY KEY], followed by the clauses
    of the given fields in their order. *)
Theorem createTable_nullable_tristate_and_id_column :
  (forall field,
     (nullable field = Some true ->
        In "NULL" (constraints field) /\ ~ In "NOT NULL" (constraints field))
     /\ (nullable field = None ->
           In "NOT NULL" (constraints field) /\ ~ In "NULL" (constraints field))
     /\ (nullable field = Some false ->
           ~ In "NULL" (constraints field) /\ ~ In "NOT NULL" (constraints field)))
  /\ (forall fieldName field,
        columnClause fieldName field
        = fieldName +:+ " " +:+ typeName (type field) +:+ sizeClause (size field)
          +:+ " " +:+ Js.join " " (constraints field))
  /\ (forall drv entityName fields w w',
        createTable drv entityName fields w = (Returned (), w') ->
        exists pre c r,
          added w w'
          = pre ++ [EvExecute c
                      (nl +:+ "    CREATE TABLE IF NOT EXISTS " +:+ entityName +:+ " ("
                       +:+ nl +:+ "      id INT AUTO_INCREMENT PRIMARY KEY,"
                       +:+ nl +:+ "      "
                       +:+ Js.join ", " (map (fun e => columnClause (fst e) (snd e)) fields)
                       +:+ nl +:+ "    )"
                       +:+ nl +:+ "  ")
                      [] (inr r);
                    EvRelease c]).
Proof.
  split; [| split].
  - intros field. destruct (constraints_null_iff field) as [Hnull Hnot].
    repeat split.
    + apply Hnull; assumption.
    + intros Hin. apply Hnot in Hin. congruence.
    + apply Hnot; assumption.
    + intros Hin. apply Hnull in Hin. congruence.
    + intros Hin. apply Hnull in Hin. congruence.
    + intros Hin. apply Hnot in Hin. congruence.
  - reflexivity.
  - intros drv entityName fields w w' Hrun.
    set (q := createTableQuery entityName fields).
    unfold createTable in Hrun. fold q in Hrun.
    match type of Hrun with
    | logMethod _ ?body _ = _ =>
        destruct (logMethod_spec "createTable" body w) as (Hf & _ & Ht);
        rewrite Hrun in Hf, Ht; simpl in Hf, Ht; clear Hrun
    end.
    cbv [mbind M_bind mret M_ret getSync] in Hf, Ht.
    destruct (truthy (sync (self w))).
    + destruct (dropTable drv entityName w) as [[a | e] w1] eqn:Hd;
        [| discriminate Hf].
      assert (Hw1 : exists evs1, trace w1 = trace w ++ evs1).
      { unfold dropTable in Hd.
        destruct (logMethod_spec "dropTable"
                    (executeQuery drv (dropTableQuery entityName) [] None) w) as (_ & _ & Ht1).
        rewrite Hd in Ht1. simpl in Ht1.
        destruct (executeQuery_pool_any drv (dropTableQuery entityName) [] w)
          as (evs1 & He1 & _).
        exists evs1. rewrite Ht1. exact He1. }
      destruct Hw1 as (evs1 & Hw1).
      destruct (executeQuery_pool_any drv q [] w1) as (evs & He & Hret).
      destruct (executeQuery drv q [] None w1) as [[a2 | e2] w2]; [| discriminate Hf].
      simpl in Ht, He. destruct (Hret a2 eq_refl) as (c & ->).
      exists (evs1 ++ [EvGetConnection (inr c)]), c, a2.
      apply added_app. rewrite Ht, He, Hw1, <- !app_assoc. reflexivity.
    + destruct (executeQuery_pool_any drv q [] w) as (evs & He & Hret).
      destruct (executeQuery drv q [] None w) as [[a2 | e2] w2]; [| discriminate Hf].
      simpl in Ht, He. destruct (Hret a2 eq_refl) as (c & ->).
      exists [EvGetConnection (inr c)], c, a2.
      apply added_app. rewrite Ht, He. reflexivity.
Qed.

Lemma createTable_nullable_tristate_and_id_column_witness :
  (In "NULL" (constraints nameField) /\ ~ In "NOT NULL" (constraints nameField))
  /\ (In "NOT NULL" (constraints ageField) /\ ~ In "NULL" (constraints ageField))
  /\ (~ In "NULL" (constraints emailField) /\ ~ In "NOT NULL" (constraints emailField))
  /\ exists pre c r,
       added idle (snd (createTable accepting "User"
                          [("name", nameField); ("age", ageField); ("email", emailField)] idle))
       = pre ++ [EvExecute c
                   (nl +:+ "    CREATE TABLE IF NOT EXISTS User ("
                    +:+ nl +:+ "      id INT AUTO_INCREMENT PRIMARY KEY,"
                    +:+ nl +:+ "      name VARCHAR(255) NULL DEFAULT 50, age INT NOT NULL, email VARCHAR(255) UNIQUE"
                    +:+ nl +:+ "    )"
                    +:+ nl +:+ "  ")
                   [] (inr r);
                 EvRelease c].
Proof.
  destruct createTable_nullable_tristate_and_id_column as (Hnull & _ & Hrun).
  destruct (Hnull nameField) as (Ht & _ & _).
  destruct (Hnull ageField) as (_ & Hu & _).
  destruct (Hnull emailField) as (_ & _ & Hf).
  split; [apply Ht; reflexivity |].
  split; [apply Hu; reflexivity |].
  split; [apply Hf; reflexivity |].
  apply (Hrun accepting "User" [("name", nameField); ("age", ageField); ("email", emailField)]
           idle).
  reflexivity.
Defined.

(** ** Bulk operations *)

Lemma commits_app (a b : list event) : commits (a ++ b) = commits a + commits b.
Proof. unfold commits. rewrite List.filter_app, length_app. reflexivity. Qed.

Lemma rollbacks_app (a b : list event) : rollbacks (a ++ b) = rollbacks a + rollbacks b.
Proof. unfold rollbacks. rewrite List.filter_app, length_app. reflexivity. Qed.

Lemma commits_inserts (c : conn) (n : string) (rows : list record) (rs : list qresult) :
  commits (inserts c n rows rs) = 0 /\ rollbacks (inserts c n rows rs) = 0.
Proof.
  revert rs. induction rows as [| row rows IH]; intros [| r rs]; simpl; auto.
  destruct (IH rs) as [Hc Hr]. split; [exact Hc | exact Hr].
Qed.

Lemma startTransaction_ok (drv : Driver) (w : world) (c : conn) :
  pool_getConnection drv (trace w) = inr c ->
  conn_beginTransaction drv (trace w ++ [EvGetConnection (inr c)]) c = None ->
  startTransaction drv w
  = (Returned (Some c),
     {| self := holding (Some c) (self w);
        trace := trace w ++ [EvGetConnection (inr c); EvBeginTransaction c None];
        console := console w |}).
Proof.
  intros Hc Hb. unfold startTransaction. run. rewrite Hc. simpl. rewrite Hb. simpl.
  rewrite <- app_assoc. reflexivity.
Qed.

(** The loop of [createMany]: either every row is inserted, or the rows
    before the first rejected one are and the loop throws that row's
    error.  The instance is not touched. *)
Lemma createManyLoop_spec (drv : Driver) (n : string) (c : conn) (entities : list record) :
  forall (acc : list qresult) (w : world),
    self (snd (createManyLoop drv n (Some c) entities acc w)) = self w
    /\ ((exists results,
           length results = length entities
           /\ fst (createManyLoop drv n (Some c) entities acc w) = Returned (acc ++ results)
           /\ trace (snd (createManyLoop drv n (Some c) entities acc w))
              = trace w ++ inserts c n entities results)
        \/ (exists results row e,
              entities !! length results = Some row
              /\ fst (createManyLoop drv n (Some c) entities acc w) = Thrown e
              /\ trace (snd (createManyLoop drv n (Some c) entities acc w))
                 = trace w ++ inserts c n (take (length results) entities) results
                   ++ [EvExecute c (insertEntityQueryMany n (keys row)) (values row) (inl e);
                       EvRelease c])).
Proof.
  induction entities as [| row rest IH]; intros acc w.
  - split; [reflexivity |]. left. exists []. simpl.
    rewrite !app_nil_r. auto.
  - simpl createManyLoop. cbv [mbind M_bind].
    destruct (executeQuery_tx drv (insertEntityQueryMany n (keys row)) (values row) c w)
      as (Hf & Hs & Ht).
    destruct (executeQuery drv (insertEntityQueryMany n (keys row)) (values row) (Some c) w)
      as [[a | e] w1]; simpl in Hf, Hs, Ht.
    + destruct (conn_execute drv (trace w) c (insertEntityQueryMany n (keys row)) (values row))
        as [e' | a'] eqn:Hx; simpl in Hf; [discriminate Hf |].
      inversion Hf; subst a'; clear Hf.
      destruct (IH (acc ++ [a]) w1) as (Hs' & [Hall | Hfail]).
      * split; [congruence |]. left.
        destruct Hall as (results & Hlen & Hfst & Htr).
        exists (a :: results). simpl. rewrite Hlen.
        split; [reflexivity |]. split.
        -- rewrite Hfst, <- app_assoc. reflexivity.
        -- rewrite Htr, Ht, <- app_assoc. reflexivity.
      * split; [congruence |]. right.
        destruct Hfail as (results & row' & e & Hrow & Hfst & Htr).
        exists (a :: results), row', e. simpl.
        split; [exact Hrow |]. split; [exact Hfst |].
        rewrite Htr, Ht, <- app_assoc. reflexivity.
    + destruct (conn_execute drv (trace w) c (insertEntityQueryMany n (keys row)) (values row))
        as [e' | a'] eqn:Hx; simpl in Hf; [| discriminate Hf].
      inversion Hf; subst e'; clear Hf.
      split; [exact Hs |]. right.
      exists [], row, e. simpl. split; [reflexivity |]. split; [reflexivity |].
      exact Ht.
Qed.

Lemma commitTransaction_active (drv : Driver) (w : world) (c : conn) :
  transactionConnection (self w) = Some c ->
  commitTransaction drv w
  = match conn_commit drv (trace w) c with
    | None => (Returned (),
               {| self := holding None (self w);
                  trace := trace w ++ [EvCommit c None; EvRelease c];
                  console := console w |})
    | Some e => (Thrown e,
                 {| self := self w;
                    trace := trace w ++ [EvCommit c (Some e)];
                    console := console w |})
    end.
Proof.
  intros H. unfold commitTransaction. run. rewrite H. simpl.
  destruct (conn_commit drv (trace w) c); simpl; rewrite <- ?app_assoc; reflexivity.
Qed.

Lemma rollbackTransaction_active (drv : Driver) (w : world) (c : conn) :
  transactionConnection (self w) = Some c ->
  rollbackTransaction drv w
  = match conn_rollback drv (trace w) c with
    | None => (Returned (),
               {| self := holding None (self w);
                  trace := trace w ++ [EvRollback c None; EvRelease c];
                  console := console w |})
    | Some e => (Thrown e,
                 {| self := self w;
                    trace := trace w ++ [EvRollback c (Some e)];
                    console := console w |})
    end.
Proof.
  intros H. unfold rollbackTransaction. run. rewrite H. simpl.
  destruct (conn_rollback drv (trace w) c); simpl; rewrite <- ?app_assoc; reflexivity.
Qed.

(** *** What a rolled-back batch leaves behind *)

Lemma replay_app (d : db) (a b : list event) : replay d (a ++ b) = replay (replay d a) b.
Proof. apply fold_left_app. Qed.

Lemma replay_cons (d : db) (e : event) (l : list event) :
  replay d (e :: l) = replay (dbStep d e) l.
Proof. reflexivity. Qed.

Lemma dbStep_execute_pending (d : db) (c : conn) (sql : string) (params : list value)
    (r : qresult) (p : list stmt) :
  pending d !! c = Some p ->
  dbStep d (EvExecute c sql params (inr r))
  = {| durable := durable d; pending := <[c := p ++ [(sql, params)]]> (pending d) |}.
Proof. intros H. unfold dbStep. rewrite H. reflexivity. Qed.

(** Inserts on a connection inside a transaction stay pending. *)
Lemma replay_inserts_pending (c : conn) (n : string) (rows : list record) :
  forall (results : list qresult) (d : db),
    is_Some (pending d !! c) ->
    durable (replay d (inserts c n rows results)) = durable d
    /\ is_Some (pending (replay d (inserts c n rows results)) !! c).
Proof.
  induction rows as [| row rows IH]; intros [| r results] d Hp; try (split; [reflexivity | exact Hp]).
  destruct Hp as [p Hp].
  change (inserts c n (row :: rows) (r :: results))
    with (EvExecute c (insertEntityQueryMany n (keys row)) (values row) (inr r)
          :: EvRelease c :: inserts c n rows results).
  rewrite !replay_cons, (dbStep_execute_pending _ _ _ _ _ p Hp).
  change (dbStep ?d (EvRelease c)) with d.
  match goal with
  | |- context [replay ?d' _] => destruct (IH results d') as [Hd Hp']
  end.
  - simpl. rewrite lookup_insert_eq. eauto.
  - split; [rewrite Hd; reflexivity | exact Hp'].
Qed.

Lemma visible_after_rollback (tr : list event) (c : conn) (n : string) (rows : list record)
    (results : list qresult) (sql : string) (params : list value) (e : error) :
  visible (tr ++ [EvGetConnection (inr c); EvBeginTransaction c None]
              ++ inserts c n rows results
              ++ [EvExecute c sql params (inl e); EvRelease c;
                  EvRollback c None; EvRelease c])
  = visible (tr ++ [EvGetConnection (inr c); EvBeginTransaction c None]).
Proof.
  unfold visible.
  rewrite (app_assoc tr [EvGetConnection (inr c); EvBeginTransaction c None]).
  rewrite (replay_app db0 (tr ++ [EvGetConnection (inr c); EvBeginTransaction c None])).
  set (d := replay db0 (tr ++ [EvGetConnection (inr c); EvBeginTransaction c None])).
  assert (Hp : is_Some (pending d !! c)).
  { unfold d. rewrite replay_app. simpl. rewrite lookup_insert_eq. eauto. }
  destruct (replay_inserts_pending c n rows results d Hp) as [Hd _].
  rewrite replay_app. simpl. exact Hd.
Qed.

Lemma counts_executed (c : conn) (stmts : list stmt) (rs : list qresult) :
  commits (executed c stmts rs) = 0 /\ rollbacks (executed c stmts rs) = 0.
Proof.
  revert rs. induction stmts as [| [sql ps] stmts IH]; intros [| r rs]; simpl; auto.
  destruct (IH rs) as [Hc Hr]. split; [exact Hc | exact Hr].
Qed.

Lemma replay_executed_pending (c : conn) (stmts : list stmt) :
  forall (results : list qresult) (d : db),
    is_Some (pending d !! c) ->
    durable (replay d (executed c stmts results)) = durable d
    /\ is_Some (pending (replay d (executed c stmts results)) !! c).
Proof.
  induction stmts as [| [sql ps] stmts IH]; intros [| r results] d Hp;
    try (split; [reflexivity | exact Hp]).
  destruct Hp as [p Hp].
  change (executed c ((sql, ps) :: stmts) (r :: results))
    with (EvExecute c sql ps (inr r) :: EvRelease c :: executed c stmts results).
  rewrite !replay_cons, (dbStep_execute_pending _ _ _ _ _ p Hp).
  change (dbStep ?d (EvRelease c)) with d.
  match goal with
  | |- context [replay ?d' _] => destruct (IH results d') as [Hd Hp']
  end.
  - simpl. rewrite lookup_insert_eq. eauto.
  - split; [rewrite Hd; reflexivity | exact Hp'].
Qed.

Lemma visible_after_rollback_executed (tr : list event) (c : conn) (stmts : list stmt)
    (results : list qresult) (sql : string) (params : list value) (e : error) :
  visible (tr ++ [EvGetConnection (inr c); EvBeginTransaction c None]
              ++ executed c stmts results
              ++ [EvExecute c sql params (inl e); EvRelease c;
                  EvRollback c None; EvRelease c])
  = visible (tr ++ [EvGetConnection (inr c); EvBeginTransaction c None]).
Proof.
  unfold visible.
  rewrite (app_assoc tr [EvGetConnection (inr c); EvBeginTransaction c None]).
  rewrite (replay_app db0 (tr ++ [EvGetConnection (inr c); EvBeginTransaction c None])).
  set (d := replay db0 (tr ++ [EvGetConnection (inr c); EvBeginTransaction c None])).
  assert (Hp : is_Some (pending d !! c)).
  { unfold d. rewrite replay_app. simpl. rewrite lookup_insert_eq. eauto. }
  destruct (replay_executed_pending c stmts results d Hp) as [Hd _].
  rewrite replay_app. simpl. exact Hd.
Qed.

(** C2, as stated, fails on the error: when the INSERT of row B is
    rejected and the ROLLBACK that follows is rejected too, [createMany]
    throws the ROLLBACK's error, not the row's; the handle stays set, row
    A stays pending on the connection, and a COMMIT issued later makes it
    visible. *)
Lemma createMany_rollback_rejected_loses_error :
  ~ reraisesOriginal idle
      (createMany rollbackFails "users" [[("name", VStr "A")]; [("name", VStr "B")]] idle)
  /\ fst (createMany rollbackFails "users" [[("name", VStr "A")]; [("name", VStr "B")]] idle)
     = Thrown (DriverError "ER_CONN_LOST")
  /\ transactionConnection
       (self (snd (createMany rollbackFails "users"
                     [[("name", VStr "A")]; [("name", VStr "B")]] idle)))
     = Some 7
  /\ visible (trace (snd (commitTransaction rollbackFails
                            (snd (createMany rollbackFails "users"
                                    [[("name", VStr "A")]; [("name", VStr "B")]] idle)))))
     = [(nl +:+ "        INSERT INTO users (name)"
         +:+ nl +:+ "        VALUES (?)"
         +:+ nl +:+ "      ", [VStr "A"])].
Proof.
  split; [| repeat split].
  intros H.
  specialize (H 7 (insertEntityQueryMany "users" ["name"]) [VStr "B"]
                (DriverError "ER_DUP_ENTRY")).
  assert (Hthrown : Thrown (DriverError "ER_CONN_LOST")
                    = @Thrown (list qresult) (DriverError "ER_DUP_ENTRY")).
  { apply H. vm_compute. do 4 right. left. reflexivity. }
  discriminate Hthrown.
Qed.

Lemma inserts_as_executed (c : conn) (n : string) (f : record -> stmt) (rows : list record) :
  (forall row, f row = (insertEntityQueryMany n (keys row), values row)) ->
  forall results, inserts c n rows results = executed c (map f rows) results.
Proof.
  intros Hf. induction rows as [| row rows IH]; intros [| r results]; simpl;
    try reflexivity.
  - destruct (f row); reflexivity.
  - rewrite (Hf row), IH. reflexivity.
Qed.

(** C2, amended. Once the pool has given a connection [c] and BEGIN has
    resolved on it, [createMany] has opened that one transaction and runs
    one INSERT per row, one after the other in input order, all on [c]:
    the INSERT of a row lists its field names, has one [?] per field, and
    binds its values.  Either every row is inserted, and then [commit] is
    called exactly once, after the last INSERT (and when it resolves the
    results are returned, nothing is rolled back, and the handle is
    cleared); or some row is rejected, and then no later row is tried,
    [commit] is never called, and [rollback] is called on [c].  When that
    ROLLBACK resolves, the rejected row's own error is thrown again, the
    handle is cleared, and the statements visible in the database are
    those that were visible when the transaction was opened: no row of
    the batch among them.  When the ROLLBACK is itself rejected, its
    error is what [createMany] throws, and the handle stays set. *)
Theorem createMany_one_transaction_all_or_nothing
    (drv : Driver) (entityName : string) (entities : list record) (w : world) (c : conn) :
  pool_getConnection drv (trace w) = inr c ->
  conn_beginTransaction drv (trace w ++ [EvGetConnection (inr c)]) c = None ->
  let run := createMany drv entityName entities w in
  let opened := [EvGetConnection (inr c); EvBeginTransaction c None] in
  let insertOf := fun row : record =>
    (nl +:+ "        INSERT INTO " +:+ entityName
     +:+ " (" +:+ Js.join ", " (map fst row) +:+ ")"
     +:+ nl +:+ "        VALUES (" +:+ Js.join ", " (repeat "?" (length row)) +:+ ")"
     +:+ nl +:+ "      ",
     map snd row) in
  (exists results rc rest,
     length results = length entities
     /\ added w (snd run)
        = opened ++ executed c (map insertOf entities) results ++ EvCommit c rc :: rest
     /\ commits (added w (snd run)) = 1
     /\ (rc = None ->
           fst run = Returned results
           /\ rest = [EvRelease c]
           /\ rollbacks (added w (snd run)) = 0
           /\ transactionConnection (self (snd run)) = None))
  \/ (exists results row e rb rest,
        entities !! length results = Some row
        /\ added w (snd run)
           = opened ++ executed c (map insertOf (take (length results) entities)) results
             ++ [EvExecute c (fst (insertOf row)) (snd (insertOf row)) (inl e);
                 EvRelease c; EvRollback c rb] ++ rest
        /\ commits (added w (snd run)) = 0
        /\ (rb = None ->
              fst run = Thrown e
              /\ rest = [EvRelease c]
              /\ transactionConnection (self (snd run)) = None
              /\ visible (trace (snd run)) = visible (trace w ++ opened))
        /\ (forall e', rb = Some e' ->
              fst run = Thrown e'
              /\ rest = []
              /\ transactionConnection (self (snd run)) = Some c)).
Proof.
  intros Hc Hb run opened insertOf.
  assert (Htext : forall row,
            insertOf row = (insertEntityQueryMany entityName (keys row), values row)).
  { intros row. unfold insertOf, insertEntityQueryMany, keys, values.
    rewrite map_const_repeat, length_map. reflexivity. }
  pose proof (inserts_as_executed c entityName insertOf) as Hins.
  unfold run, createMany.
  match goal with
  | |- context [logMethod "createMany" ?body w] =>
      destruct (logMethod_run "createMany" body w) as (o & w' & Hbody & Hf & Hs & Ht)
  end.
  unfold added. rewrite Hf, Hs, Ht. clear Hf Hs Ht.
  cbv [mbind M_bind] in Hbody. rewrite (startTransaction_ok drv w c Hc Hb) in Hbody.
  cbv [tryCatch mbind M_bind mret M_ret throw] in Hbody.
  set (w1 := {| self := holding (Some c) (self w);
                trace := trace w ++ [EvGetConnection (inr c); EvBeginTransaction c None];
                console := console w |}) in *.
  destruct (createManyLoop_spec drv entityName c entities [] w1) as (Hself & Hloop).
  destruct (createManyLoop drv entityName (Some c) entities [] w1) as [[res | e] w2];
    simpl in Hself, Hloop.
  - destruct Hloop as [(results & Hlen & Hres & Htr) | (? & ? & ? & _ & Hres & _)];
      [| discriminate Hres].
    inversion Hres; subst res; clear Hres.
    rewrite (Hins entities Htext) in Htr.
    assert (Htc : transactionConnection (self w2) = Some c) by (rewrite Hself; reflexivity).
    rewrite (commitTransaction_active drv w2 c Htc) in Hbody.
    destruct (counts_executed c (map insertOf entities) results) as [Hci Hri].
    left. destruct (conn_commit drv (trace w2) c) as [e |].
    + rewrite (rollbackTransaction_active drv
                 {| self := self w2;
                    trace := trace w2 ++ [EvCommit c (Some e)];
                    console := console w2 |} c Htc) in Hbody.
      simpl in Hbody.
      destruct (conn_rollback drv (trace w2 ++ [EvCommit c (Some e)]) c) as [e' |];
        inversion Hbody; subst o w'; clear Hbody; simpl; rewrite Htr; unfold w1; simpl;
        rewrite <- !app_assoc, drop_app_length.
      * exists results, (Some e), [EvRollback c (Some e')].
        split; [exact Hlen |]. split; [reflexivity |].
        split; [| intros H; discriminate H].
        rewrite !commits_app, Hci. reflexivity.
      * exists results, (Some e), [EvRollback c None; EvRelease c].
        split; [exact Hlen |]. split; [reflexivity |].
        split; [| intros H; discriminate H].
        rewrite !commits_app, Hci. reflexivity.
    + inversion Hbody; subst o w'; clear Hbody; simpl; rewrite Htr; unfold w1; simpl;
        rewrite <- !app_assoc, drop_app_length.
      exists results, None, [EvRelease c].
      split; [exact Hlen |]. split; [reflexivity |].
      split; [rewrite !commits_app, Hci; reflexivity |].
      intros _. split; [reflexivity |]. split; [reflexivity |].
      split; [rewrite !rollbacks_app, Hri; reflexivity | reflexivity].
  - destruct Hloop as [(? & _ & Hres & _) | (results & row & e' & Hrow & Hres & Htr)];
      [discriminate Hres |].
    inversion Hres; subst e'; clear Hres.
    rewrite (Hins (take (length results) entities) Htext) in Htr.
    assert (Hrowtext : insertEntityQueryMany entityName (keys row) = fst (insertOf row)
                       /\ values row = snd (insertOf row))
      by (rewrite (Htext row); split; reflexivity).
    destruct Hrowtext as [Hq Hv]. rewrite Hq, Hv in Htr.
    assert (Htc : transactionConnection (self w2) = Some c) by (rewrite Hself; reflexivity).
    rewrite (rollbackTransaction_active drv w2 c Htc) in Hbody.
    right.
    destruct (counts_executed c (map insertOf (take (length results) entities)) results)
      as [Hci Hri].
    destruct (conn_rollback drv (trace w2) c) as [e' |];
      inversion Hbody; subst o w'; clear Hbody; simpl; rewrite Htr; unfold w1; simpl;
      rewrite <- !app_assoc, drop_app_length.
    + exists results, row, e, (Some e'), [].
      split; [exact Hrow |]. split; [reflexivity |].
      split; [rewrite !commits_app, Hci; reflexivity |].
      split; [intros H; discriminate H |].
      intros e'' He. inversion He; subst e''.
      split; [reflexivity |]. split; [reflexivity |]. rewrite Hself. reflexivity.
    + exists results, row, e, None, [EvRelease c].
      split; [exact Hrow |]. split; [reflexivity |].
      split; [rewrite !commits_app, Hci; reflexivity |].
      split; [| intros e'' He; discriminate He].
      intros _. split; [reflexivity |]. split; [reflexivity |].
      split; [reflexivity |].
      apply (visible_after_rollback_executed (trace w) c).
Qed.

Lemma createMany_one_transaction_all_or_nothing_witness :
  commits (added idle (snd (createMany rejectingB "users"
                              [[("name", VStr "A")]; [("name", VStr "B")]] idle))) = 0
  /\ fst (createMany rejectingB "users" [[("name", VStr "A")]; [("name", VStr "B")]] idle)
     = Thrown (DriverError "ER_DUP_ENTRY")
  /\ visible (trace (snd (createMany rejectingB "users"
                            [[("name", VStr "A")]; [("name", VStr "B")]] idle))) = []
  /\ statements (added idle (snd (createMany rejectingB "users"
                                    [[("name", VStr "A")]; [("name", VStr "B")]] idle)))
     = [(nl +:+ "        INSERT INTO users (name)"
         +:+ nl +:+ "        VALUES (?)"
         +:+ nl +:+ "      ", [VStr "A"]);
        (nl +:+ "        INSERT INTO users (name)"
         +:+ nl +:+ "        VALUES (?)"
         +:+ nl +:+ "      ", [VStr "B"])]
  /\ statements (added idle (snd (createMany accepting "users"
                                    [[("name", VStr "A"); ("age", VNum 55)]] idle)))
     = [(nl +:+ "        INSERT INTO users (name, age)"
         +:+ nl +:+ "        VALUES (?, ?)"
         +:+ nl +:+ "      ", [VStr "A"; VNum 55])].
Proof.
  split; [| repeat split].
  destruct (createMany_one_transaction_all_or_nothing rejectingB "users"
              [[("name", VStr "A")]; [("name", VStr "B")]] idle 7 eq_refl eq_refl)
    as [(results & rc & rest & _ & _ & H1 & _)
       | (results & row & e & rb & rest & _ & _ & H0 & _)].
  - vm_compute in H1. discriminate H1.
  - exact H0.
Defined.

(** *** [deleteMany] *)

Lemma commitTransaction_idle (drv : Driver) (w : world) :
  transactionConnection (self w) = None -> commitTransaction drv w = (Returned (), w).
Proof. intros H. unfold commitTransaction. run. rewrite H. reflexivity. Qed.

Lemma rollbackTransaction_idle (drv : Driver) (w : world) :
  transactionConnection (self w) = None -> rollbackTransaction drv w = (Returned (), w).
Proof. intros H. unfold rollbackTransaction. run. rewrite H. reflexivity. Qed.

(** The loop of [deleteMany] once the handle is cleared: the DELETEs go
    on, and neither COMMIT nor ROLLBACK is issued again. *)
Lemma deleteManyLoop_idle (drv : Driver) (n : string) (c : conn) (ids : list Z) :
  forall w : world,
    transactionConnection (self w) = None ->
    transactionConnection (self (snd (deleteManyLoop drv n (Some c) ids w))) = None
    /\ exists evs,
         trace (snd (deleteManyLoop drv n (Some c) ids w)) = trace w ++ evs
         /\ commits evs = 0 /\ rollbacks evs = 0.
Proof.
  induction ids as [| id rest IH]; intros w Hidle.
  - split; [exact Hidle |]. exists []. rewrite app_nil_r. auto.
  - simpl deleteManyLoop. cbv [mbind M_bind].
    destruct (executeQuery_tx drv (deleteEntityQuery n) [VNum id] c w) as (_ & Hs & Ht).
    destruct (executeQuery drv (deleteEntityQuery n) [VNum id] (Some c) w) as [[a | e] w1];
      simpl in Hs, Ht.
    + assert (Hidle1 : transactionConnection (self w1) = None) by congruence.
      rewrite (commitTransaction_idle drv w1 Hidle1).
      destruct (IH w1 Hidle1) as (Hh & evs & Hevs & Hc & Hr).
      split; [exact Hh |].
      eexists. split; [rewrite Hevs, Ht, <- app_assoc; reflexivity |].
      rewrite commits_app, rollbacks_app, Hc, Hr. split; reflexivity.
    + simpl. split; [congruence |].
      eexists. split; [exact Ht |]. split; reflexivity.
Qed.

(** C1 does not hold of the code.  With a batch of two ids or more, once
    the transaction is open and the first DELETE and the COMMIT resolve,
    the COMMIT is issued right after the first DELETE; the DELETE of the
    second id is executed after it, on the connection already released;
    and whatever follows contains no further COMMIT and no ROLLBACK. *)
Theorem deleteMany_commits_after_first_delete
    (drv : Driver) (entityName : string) (id1 id2 : Z) (ids : list Z)
    (w : world) (c : conn) (a1 : qresult) :
  pool_getConnection drv (trace w) = inr c ->
  conn_beginTransaction drv (trace w ++ [EvGetConnection (inr c)]) c = None ->
  conn_execute drv (trace w ++ [EvGetConnection (inr c); EvBeginTransaction c None]) c
    (deleteEntityQuery entityName) [VNum id1] = inr a1 ->
  conn_commit drv
    (trace w ++ [EvGetConnection (inr c); EvBeginTransaction c None;
                 EvExecute c (deleteEntityQuery entityName) [VNum id1] (inr a1);
                 EvRelease c]) c = None ->
  exists r2 rest,
    added w (snd (deleteMany drv entityName (id1 :: id2 :: ids) w))
    = [EvGetConnection (inr c); EvBeginTransaction c None;
       EvExecute c (deleteEntityQuery entityName) [VNum id1] (inr a1); EvRelease c;
       EvCommit c None; EvRelease c;
       EvExecute c (deleteEntityQuery entityName) [VNum id2] r2; EvRelease c] ++ rest
    /\ commits rest = 0
    /\ rollbacks rest = 0.
Proof.
  intros Hc Hb Hx Hk. unfold deleteMany.
  match goal with
  | |- context [logMethod "deleteMany" ?body w] =>
      destruct (logMethod_run "deleteMany" body w) as (o & w' & Hbody & _ & _ & Ht)
  end.
  unfold added. rewrite Ht. clear Ht.
  cbv [mbind M_bind] in Hbody. rewrite (startTransaction_ok drv w c Hc Hb) in Hbody.
  set (w1 := {| self := holding (Some c) (self w);
                trace := trace w ++ [EvGetConnection (inr c); EvBeginTransaction c None];
                console := console w |}) in *.
  simpl deleteManyLoop in Hbody. cbv [tryCatch mbind M_bind throw] in Hbody.
  (* the first DELETE, inside the transaction *)
  destruct (executeQuery_tx drv (deleteEntityQuery entityName) [VNum id1] c w1)
    as (Hf1 & Hs1 & Ht1).
  simpl trace in Hf1, Ht1. rewrite Hx in Hf1, Ht1.
  destruct (executeQuery drv (deleteEntityQuery entityName) [VNum id1] (Some c) w1)
    as [[a | e] w2]; simpl in Hf1, Hs1, Ht1; [| discriminate Hf1].
  (* the COMMIT of the first iteration *)
  assert (Htc : transactionConnection (self w2) = Some c) by (rewrite Hs1; reflexivity).
  rewrite (commitTransaction_active drv w2 c Htc) in Hbody.
  rewrite Ht1, <- app_assoc in Hbody. simpl app in Hbody. rewrite Hk in Hbody.
  set (w3 := {| self := holding None (self w2);
                trace := _;
                console := console w2 |}) in Hbody.
  (* the second DELETE, after the COMMIT *)
  destruct (executeQuery_tx drv (deleteEntityQuery entityName) [VNum id2] c w3)
    as (_ & Hs4 & Ht4).
  set (r2 := conn_execute drv (trace w3) c (deleteEntityQuery entityName) [VNum id2]) in Ht4.
  exists r2.
  destruct (executeQuery drv (deleteEntityQuery entityName) [VNum id2] (Some c) w3)
    as [[a2 | e2] w4]; simpl in Hs4, Ht4.
  - assert (Hidle4 : transactionConnection (self w4) = None) by (rewrite Hs4; reflexivity).
    rewrite (commitTransaction_idle drv w4 Hidle4) in Hbody.
    destruct (deleteManyLoop_idle drv entityName c ids w4 Hidle4)
      as (Hidle5 & evs & Hevs & Hcs & Hrs).
    destruct (deleteManyLoop drv entityName (Some c) ids w4) as [[u | e] w5];
      simpl in Hidle5, Hevs.
    + inversion Hbody; subst o w'; clear Hbody.
      exists evs. split; [| split; assumption].
      rewrite Hevs, Ht4. unfold w3. simpl. rewrite <- !app_assoc, drop_app_length.
      reflexivity.
    + rewrite (rollbackTransaction_idle drv w5 Hidle5) in Hbody.
      inversion Hbody; subst o w'; clear Hbody.
      exists evs. split; [| split; assumption].
      rewrite Hevs, Ht4. unfold w3. simpl. rewrite <- !app_assoc, drop_app_length.
      reflexivity.
  - assert (Hidle4 : transactionConnection (self w4) = None) by (rewrite Hs4; reflexivity).
    rewrite (rollbackTransaction_idle drv w4 Hidle4) in Hbody.
    inversion Hbody; subst o w'; clear Hbody.
    exists []. split; [| split; reflexivity].
    rewrite Ht4. unfold w3. simpl. rewrite <- !app_assoc, drop_app_length.
    reflexivity.
Qed.

Lemma deleteMany_commits_after_first_delete_witness :
  exists r2 rest,
    added idle (snd (deleteMany accepting "users" [1; 2; 3]%Z idle))
    = [EvGetConnection (inr 7); EvBeginTransaction 7 None;
       EvExecute 7 (deleteEntityQuery "users") [VNum 1] (inr (QHeader 1 2)); EvRelease 7;
       EvCommit 7 None; EvRelease 7;
       EvExecute 7 (deleteEntityQuery "users") [VNum 2] r2; EvRelease 7] ++ rest
    /\ commits rest = 0
    /\ rollbacks rest = 0.
Proof.
  apply (deleteMany_commits_after_first_delete accepting "users" 1 2 [3%Z] idle 7
           (QHeader 1 2)); reflexivity.
Defined.

(** The whole run on three ids: one COMMIT, after the first DELETE. *)
Example deleteMany_three_ids :
  added idle (snd (deleteMany accepting "users" [1; 2; 3]%Z idle))
  = [EvGetConnection (inr 7); EvBeginTransaction 7 None;
     EvExecute 7 "DELETE FROM users WHERE id = ?" [VNum 1] (inr (QHeader 1 2)); EvRelease 7;
     EvCommit 7 None; EvRelease 7;
     EvExecute 7 "DELETE FROM users WHERE id = ?" [VNum 2] (inr (QHeader 1 6)); EvRelease 7;
     EvExecute 7 "DELETE FROM users WHERE id = ?" [VNum 3] (inr (QHeader 1 8)); EvRelease 7].
Proof. reflexivity. Qed.

(** With a driver that rejects the DELETE of id [2], [deleteMany] throws,
    and the DELETE of id [1] stays visible: it was committed before the
    second one ran. *)
Example deleteMany_keeps_first_row_when_second_fails :
  fst (deleteMany rejecting2 "users" [1; 2]%Z idle) = Thrown (DriverError "ER_DUP_ENTRY")
  /\ visible (trace (snd (deleteMany rejecting2 "users" [1; 2]%Z idle)))
     = [("DELETE FROM users WHERE id = ?", [VNum 1])]
  /\ rollbacks (trace (snd (deleteMany rejecting2 "users" [1; 2]%Z idle))) = 0.
Proof. repeat split; reflexivity. Qed.

(** * Further properties *)

(** ** Indexes *)

(** One statement sent on a connection of its own by a method that
    discards the result. *)
Lemma logged_statement {A : Type} (drv : Driver) (key q : string) (ps : list value)
    (g : qresult -> A) (c : conn) (w : world) :
  pool_getConnection drv (trace w) = inr c ->
  statements (added w (snd (logMethod key (x ← executeQuery drv q ps None; mret (g x)) w)))
  = [(q, ps)].
Proof.
  intros Hc. rewrite (logged_query_then drv key q ps g c w Hc). reflexivity.
Qed.

(** X1. [index] sends one CREATE INDEX (UNIQUE INDEX when [unique] is
    true, INDEX when it is false or absent) on the listed columns, the
    index named [idx_<entity>_<fields joined by _>]; a single field given
    as a string is the one-element list.  [dropIndex], given that name,
    sends the DROP INDEX of the index [index] created. *)
Theorem index_creates_named_index
    (drv : Driver) (entityName : string) (fields : string + list string)
    (unique : option bool) (w : world) (c : conn) :
  pool_getConnection drv (trace w) = inr c ->
  let columns := match fields with inl f => [f] | inr fs => fs end in
  let name := "idx_" +:+ entityName +:+ "_" +:+ Js.join "_" columns in
  statements (added w (snd (index drv entityName fields unique w)))
  = [(nl +:+ "        CREATE "
      +:+ match unique with Some true => "UNIQUE INDEX" | _ => "INDEX" end
      +:+ " " +:+ name
      +:+ nl +:+ "        ON " +:+ entityName +:+ " (" +:+ Js.join ", " columns +:+ ")"
      +:+ nl +:+ "      ", [])]
  /\ statements (added w (snd (dropIndex drv entityName name w)))
     = [(nl +:+ "        DROP INDEX " +:+ name
         +:+ nl +:+ "        ON " +:+ entityName
         +:+ nl +:+ "      ", [])].
Proof.
  intros Hc columns name. split.
  - unfold index.
    rewrite (logged_statement drv "index" _ [] (fun _ => ()) c w Hc).
    unfold createIndexQuery, indexType, indexName, asArray.
    destruct unique as [[|] |]; reflexivity.
  - unfold dropIndex.
    rewrite (logged_statement drv "dropIndex" _ [] (fun _ => ()) c w Hc).
    reflexivity.
Qed.

Lemma index_creates_named_index_witness :
  statements (added idle (snd (index accepting "users" (inr ["username"; "email"])
                                 (Some true) idle)))
  = [(nl +:+ "        CREATE UNIQUE INDEX idx_users_username_email"
      +:+ nl +:+ "        ON users (username, email)"
      +:+ nl +:+ "      ", [])]
  /\ statements (added idle (snd (dropIndex accepting "users" "idx_users_username_email" idle)))
     = [(nl +:+ "        DROP INDEX idx_users_username_email"
         +:+ nl +:+ "        ON users"
         +:+ nl +:+ "      ", [])].
Proof.
  exact (index_creates_named_index accepting "users" (inr ["username"; "email"])
           (Some true) idle 7 eq_refl).
Defined.

Lemma append_eq_self (a b : string) : a +:+ b = a -> b = "".
Proof.
  induction a as [| d a IH]; [intros H; exact H |].
  rewrite append_cons. intros H. inversion H. auto.
Qed.

(** X2. Index names do not tell field lists apart: the list [f, g, ...]
    and the list whose first field is named [f_g] are different lists of
    columns with the same index name, so [index] on the one and on the
    other ask the database for two indexes of one name. *)
Theorem index_name_collides (entityName f g : string) (rest : list string) :
  f :: g :: rest <> (f +:+ "_" +:+ g) :: rest
  /\ indexName entityName (f :: g :: rest) = indexName entityName ((f +:+ "_" +:+ g) :: rest)
  /\ forall drv w c,
       pool_getConnection drv (trace w) = inr c ->
       exists onCols onCols',
         statements (added w (snd (index drv entityName (inr (f :: g :: rest)) None w)))
         = [(nl +:+ "        CREATE INDEX " +:+ indexName entityName (f :: g :: rest)
             +:+ onCols, [])]
         /\ statements (added w (snd (index drv entityName
                                        (inr ((f +:+ "_" +:+ g) :: rest)) None w)))
            = [(nl +:+ "        CREATE INDEX " +:+ indexName entityName (f :: g :: rest)
                +:+ onCols', [])].
Proof.
  assert (Hname : indexName entityName (f :: g :: rest)
                  = indexName entityName ((f +:+ "_" +:+ g) :: rest)).
  { unfold indexName. do 3 f_equal.
    destruct rest as [| h t]; [reflexivity |].
    rewrite !join_cons2, !append_assoc. reflexivity. }
  split; [| split; [exact Hname |]].
  - intros H. inversion H as [[Hf Hrest]].
    symmetry in Hf. apply append_eq_self in Hf. discriminate Hf.
  - intros drv w c Hc. eexists _, _. split.
    + unfold index.
      rewrite (logged_statement drv "index" _ [] (fun _ => ()) c w Hc).
      reflexivity.
    + unfold index.
      rewrite (logged_statement drv "index" _ [] (fun _ => ()) c w Hc).
      rewrite Hname. reflexivity.
Qed.

Lemma index_name_collides_witness :
  exists onCols onCols',
    statements (added idle (snd (index accepting "users" (inr ["first"; "name"]) None idle)))
    = [(nl +:+ "        CREATE INDEX " +:+ indexName "users" ["first"; "name"] +:+ onCols, [])]
    /\ statements (added idle (snd (index accepting "users" (inr ["first_name"]) None idle)))
       = [(nl +:+ "        CREATE INDEX " +:+ indexName "users" ["first"; "name"]
           +:+ onCols', [])].
Proof.
  destruct (index_name_collides "users" "first" "name" []) as (_ & _ & H).
  exact (H accepting idle 7 eq_refl).
Defined.

(** ** Single statements *)

Lemma countChar_join_assignments (l : list string) :
  Forall (fun k => countChar "?" k = 0) l ->
  countChar "?" (Js.join ", " (map (fun k => k +:+ " = ?") l)) = length l.
Proof.
  intros Hl. induction Hl as [| x l Hx Hl IH]; [reflexivity |].
  destruct l as [| y l].
  - simpl. rewrite countChar_app, Hx. reflexivity.
  - change (map (fun k => k +:+ " = ?") (x :: y :: l))
      with ((x +:+ " = ?") :: (y +:+ " = ?") :: map (fun k => k +:+ " = ?") l).
    rewrite join_cons2, !countChar_app, Hx.
    change ((y +:+ " = ?") :: map (fun k => k +:+ " = ?") l)
      with (map (fun k => k +:+ " = ?") (y :: l)).
    rewrite IH. reflexivity.
Qed.

(** X3. [update] hands the driver one UPDATE whose SET list is
    [name = ?] for each field in the map's order, and whose parameters
    are the field values in that order followed by the id: the id is
    always the last parameter, there is one parameter more than there are
    fields, and, when no name contains a [?], as many [?] in the text. *)
Theorem update_binds_fields_then_id
    (drv : Driver) (entityName : string) (id : Z) (fields : record) (w : world) (c : conn) :
  pool_getConnection drv (trace w) = inr c ->
  let sql :=
    nl +:+ "      UPDATE " +:+ entityName
    +:+ nl +:+ "      SET " +:+ Js.join ", " (map (fun kv => fst kv +:+ " = ?") fields)
    +:+ nl +:+ "      WHERE id = ?"
    +:+ nl +:+ "    " in
  let params := map snd fields ++ [VNum id] in
  (exists r,
     added w (snd (update drv entityName id fields w))
     = [EvGetConnection (inr c); EvExecute c sql params r; EvRelease c]
     /\ fst (update drv entityName id fields w) = ofSum r)
  /\ last params = Some (VNum id)
  /\ length params = length fields + 1
  /\ (countChar "?" entityName = 0 ->
      Forall (fun k => countChar "?" k = 0) (map fst fields) ->
      countChar "?" sql = length params).
Proof.
  intros Hc sql params.
  assert (Hsql : updateEntityQuery entityName (keys fields) = sql).
  { unfold updateEntityQuery, keys, sql. rewrite map_map. reflexivity. }
  split; [| split; [| split]].
  - unfold update. rewrite Hsql.
    destruct (logged_query drv "update" sql (values fields ++ [VNum id]) c w Hc) as [Ht Hf].
    eexists. split; [exact Ht | exact Hf].
  - unfold params. apply last_snoc.
  - unfold params. rewrite length_app, length_map. reflexivity.
  - intros Hn Hk. rewrite <- Hsql. unfold updateEntityQuery, keys, params.
    rewrite !countChar_app, (countChar_join_assignments _ Hk), Hn.
    rewrite length_app, !length_map. simpl. lia.
Qed.

Lemma update_binds_fields_then_id_witness :
  exists r,
    added idle (snd (update accepting "users" 4 [("name", VStr "J"); ("age", VNum 26)] idle))
    = [EvGetConnection (inr 7);
       EvExecute 7
         (nl +:+ "      UPDATE users"
          +:+ nl +:+ "      SET name = ?, age = ?"
          +:+ nl +:+ "      WHERE id = ?"
          +:+ nl +:+ "    ")
         [VStr "J"; VNum 26; VNum 4] r;
       EvRelease 7]
    /\ fst (update accepting "users" 4 [("name", VStr "J"); ("age", VNum 26)] idle) = ofSum r.
Proof.
  destruct (update_binds_fields_then_id accepting "users" 4
              [("name", VStr "J"); ("age", VNum 26)] idle 7 eq_refl) as (H & _).
  exact H.
Defined.



Lemma truthyStr_nonempty (s : string) : truthyStr (Some s) = true <-> s <> "".
Proof.
  destruct s as [| a s]; simpl; split; intros H.
  - discriminate H.
  - exfalso. apply H. reflexivity.
  - discriminate.
  - reflexivity.
Qed.

(** X5. [find] writes an ORDER BY clause exactly when [sortBy] is given
    and not the empty string and [sortOrder] is given; the clause is then
    [ORDER BY sortBy ASC] or [ORDER BY sortBy DESC].  The column list is
    [fields] when it is given and not the empty string, and [*]
    otherwise. *)
Theorem find_order_clause_and_columns
    (drv : Driver) (entityName : string) (conditions : option record) (fields : option string)
    (page pageSize : option Z) (sortBy : option string) (sortOrder : option SortOrder)
    (w : world) (c : conn) :
  pool_getConnection drv (trace w) = inr c ->
  exists columns clause,
    statements (added w (snd (find drv entityName conditions fields page pageSize
                                sortBy sortOrder w)))
    = [(nl +:+ "        SELECT " +:+ columns
        +:+ nl +:+ "        FROM " +:+ entityName
        +:+ nl +:+ "        " +:+ conditionString (escape drv) conditions
        +:+ nl +:+ "        " +:+ clause
        +:+ nl +:+ "        " +:+ limitClause page pageSize
        +:+ nl +:+ "      ", [])]
    /\ (clause <> "" <-> exists sb so, sortBy = Some sb /\ sb <> "" /\ sortOrder = Some so)
    /\ (forall sb so, sortBy = Some sb -> sb <> "" -> sortOrder = Some so ->
          clause = "ORDER BY " +:+ sb +:+ " "
                   +:+ match so with asc => "ASC" | desc => "DESC" end)
    /\ (forall f, fields = Some f -> f <> "" -> columns = f)
    /\ (fields = None \/ fields = Some "" -> columns = "*").
Proof.
  intros Hc. exists (selectList fields), (orderByClause sortBy sortOrder).
  split.
  { unfold find.
    match goal with
    | |- context [executeQuery drv ?q [] None] =>
        destruct (logged_query drv "find" q [] c w Hc) as [Ht _]
    end.
    rewrite Ht. reflexivity. }
  assert (Hgiven : forall sb so, sb <> "" ->
            orderByClause (Some sb) (Some so)
            = "ORDER BY " +:+ sb +:+ " " +:+ match so with asc => "ASC" | desc => "DESC" end).
  { intros sb so Hsb. unfold orderByClause.
    apply truthyStr_nonempty in Hsb. rewrite Hsb. destruct so; reflexivity. }
  split; [| split; [| split]].
  - split.
    + intros Hne. destruct sortBy as [sb |], sortOrder as [so |];
        try (exfalso; apply Hne; reflexivity).
      exists sb, so. split; [reflexivity |]. split; [| reflexivity].
      intros ->. apply Hne. reflexivity.
    + intros (sb & so & -> & Hsb & ->). rewrite (Hgiven sb so Hsb). discriminate.
  - intros sb so -> Hsb ->. apply Hgiven, Hsb.
  - intros f -> Hf. unfold selectList. apply truthyStr_nonempty in Hf. rewrite Hf.
    reflexivity.
  - intros [-> | ->]; reflexivity.
Qed.

Lemma find_order_clause_and_columns_witness :
  exists columns clause,
    statements (added idle (snd (find accepting "users" None (Some "") None None
                                   (Some "created_at") (Some asc) idle)))
    = [(nl +:+ "        SELECT " +:+ columns
        +:+ nl +:+ "        FROM users"
        +:+ nl +:+ "        "
        +:+ nl +:+ "        " +:+ clause
        +:+ nl +:+ "        "
        +:+ nl +:+ "      ", [])]
    /\ clause = "ORDER BY created_at ASC"
    /\ columns = "*".
Proof.
  destruct (find_order_clause_and_columns accepting "users" None (Some "") None None
              (Some "created_at") (Some asc) idle 7 eq_refl)
    as (columns & clause & Ht & _ & Hclause & _ & Hstar).
  exists columns, clause. split; [exact Ht |]. split.
  - apply (Hclause "created_at" asc); [reflexivity | discriminate | reflexivity].
  - apply Hstar. right. reflexivity.
Defined.

(** The outcome of a method that maps the result of its one statement. *)
Lemma logged_query_map {A : Type} (drv : Driver) (key q : string) (ps : list value)
    (g : qresult -> A) (c : conn) (w : world) :
  pool_getConnection drv (trace w) = inr c ->
  fst (logMethod key (x ← executeQuery drv q ps None; mret (g x)) w)
  = match conn_execute drv (trace w ++ [EvGetConnection (inr c)]) c q ps with
    | inl e => Thrown e
    | inr a => Returned (g a)
    end.
Proof.
  intros Hc.
  destruct (logMethod_spec key (x ← executeQuery drv q ps None; mret (g x)) w) as (Hf & _ & _).
  destruct (executeQuery_pool drv q ps c w Hc) as (Hf' & _ & _).
  rewrite Hf. cbv [mbind M_bind mret M_ret].
  destruct (executeQuery drv q ps None w) as [[a | e] w1]; simpl in Hf' |- *;
    destruct (conn_execute drv (trace w ++ [EvGetConnection (inr c)]) c q ps);
    simpl in Hf'; congruence.
Qed.

(** X6. [findById] hands the driver one SELECT of the given columns
    ([*] when none or the empty string is given) with the id as its only
    parameter.  It returns the first row of the answer, [null] when the
    answer has no row, and throws what the driver throws. *)
Theorem findById_first_row_or_null
    (drv : Driver) (entityName : string) (id : Z) (fields : option string)
    (w : world) (c : conn) :
  pool_getConnection drv (trace w) = inr c ->
  let sql := "SELECT " +:+ selectList fields +:+ " FROM " +:+ entityName +:+ " WHERE id = ?" in
  let r := conn_execute drv (trace w ++ [EvGetConnection (inr c)]) c sql [VNum id] in
  added w (snd (findById drv entityName id fields w))
  = [EvGetConnection (inr c); EvExecute c sql [VNum id] r; EvRelease c]
  /\ (forall row rest, r = inr (QRows (row :: rest)) ->
        fst (findById drv entityName id fields w) = Returned (Some row))
  /\ (r = inr (QRows []) -> fst (findById drv entityName id fields w) = Returned None)
  /\ (forall e, r = inl e -> fst (findById drv entityName id fields w) = Thrown e).
Proof.
  intros Hc sql r. unfold findById.
  pose proof (logged_query_then drv "findById" sql [VNum id] firstRow c w Hc) as Ht.
  pose proof (logged_query_map drv "findById" sql [VNum id] firstRow c w Hc) as Hf.
  fold r in Ht, Hf. fold sql. unfold selectByIdQuery. fold sql.
  split; [exact Ht |].
  repeat split.
  - intros row rest Hr. rewrite Hf, Hr. reflexivity.
  - intros Hr. rewrite Hf, Hr. reflexivity.
  - intros e Hr. rewrite Hf, Hr. reflexivity.
Qed.

Lemma findById_first_row_or_null_witness :
  fst (findById (answering [[("id", VNum 4); ("name", VStr "J")]; [("id", VNum 5)]])
         "users" 4 None idle)
  = Returned (Some [("id", VNum 4); ("name", VStr "J")])
  /\ fst (findById (answering []) "users" 4 None idle) = Returned None.
Proof.
  split.
  - destruct (findById_first_row_or_null
                (answering [[("id", VNum 4); ("name", VStr "J")]; [("id", VNum 5)]])
                "users" 4 None idle 7 eq_refl) as (_ & Hrow & _).
    apply (Hrow _ [[("id", VNum 5)]]). reflexivity.
  - destruct (findById_first_row_or_null (answering []) "users" 4 None idle 7 eq_refl)
      as (_ & _ & Hnone & _).
    apply Hnone. reflexivity.
Defined.

(** X7. [count] returns the [count] column of the first row of the
    answer, [0] when the answer has no row, and throws what the driver
    throws. *)
Theorem count_reads_first_row
    (drv : Driver) (entityName : string) (conditions : option record) (w : world) (c : conn) :
  pool_getConnection drv (trace w) = inr c ->
  let sql := "SELECT COUNT(*) AS count FROM " +:+ entityName +:+ " "
             +:+ conditionString (escape drv) conditions in
  let r := conn_execute drv (trace w ++ [EvGetConnection (inr c)]) c sql [] in
  (forall v cols rest, r = inr (QRows ((("count", v) :: cols) :: rest)) ->
     fst (count drv entityName conditions w) = Returned v)
  /\ (r = inr (QRows []) -> fst (count drv entityName conditions w) = Returned (VNum 0))
  /\ (forall e, r = inl e -> fst (count drv entityName conditions w) = Thrown e).
Proof.
  intros Hc sql r. unfold count.
  pose proof (logged_query_map drv "count" sql [] countOf c w Hc) as Hf.
  fold r in Hf. unfold countQuery. fold sql.
  repeat split.
  - intros v cols rest Hr. rewrite Hf, Hr. unfold countOf. simpl.
    rewrite lookup_insert_eq. reflexivity.
  - intros Hr. rewrite Hf, Hr. reflexivity.
  - intros e Hr. rewrite Hf, Hr. reflexivity.
Qed.

Lemma count_reads_first_row_witness :
  fst (count (answering [[("count", VNum 3)]]) "users" (Some [("age", VNum 26)]) idle)
  = Returned (VNum 3)
  /\ fst (count (answering []) "users" None idle) = Returned (VNum 0).
Proof.
  split.
  - destruct (count_reads_first_row (answering [[("count", VNum 3)]]) "users"
                (Some [("age", VNum 26)]) idle 7 eq_refl) as (Hrow & _).
    apply (Hrow (VNum 3) [] []). reflexivity.
  - destruct (count_reads_first_row (answering []) "users" None idle 7 eq_refl)
      as (_ & Hnone & _).
    apply Hnone. reflexivity.
Defined.

(** ** Connections and the console *)

Lemma executeQuery_pool_fail (drv : Driver) (q : string) (ps : list value) (e : error)
    (w : world) :
  pool_getConnection drv (trace w) = inl e ->
  fst (executeQuery drv q ps None w) = Thrown e
  /\ self (snd (executeQuery drv q ps None w)) = self w
  /\ trace (snd (executeQuery drv q ps None w)) = trace w ++ [EvGetConnection (inl e)].
Proof.
  intros Hc. unfold executeQuery. run.
  destruct (truthy (logging (self w))); simpl; rewrite Hc; simpl; auto.
Qed.




(** X10. The [logMethod] decorator changes neither what the method
    returns or throws, nor the instance, nor the calls made to the driver:
    it adds one console line, the error under the method's qualified name,
    exactly when the method throws.  So a failure inside [create] is
    printed twice, first by [executeQuery] and then by [create], and what
    [create] throws is still the driver's error. *)
Theorem logMethod_prints_error_and_rethrows :
  (forall (A : Type) (key : string) (m : M A) (w : world),
     fst (logMethod key m w) = fst (m w)
     /\ self (snd (logMethod key m w)) = self (snd (m w))
     /\ trace (snd (logMethod key m w)) = trace (snd (m w))
     /\ console (snd (logMethod key m w))
        = console (snd (m w))
          ++ match fst (m w) with
             | Thrown e => [ConsoleError ("HanORM." +:+ key) e]
             | Returned _ => []
             end)
  /\ (forall drv entityName fields w,
        console (snd (create drv entityName fields w))
        = console w
          ++ (if truthy (logging (self w))
              then [ConsoleLog "executeQuery"
                      (insertEntityQuery entityName (map fst fields)) (map snd fields) None]
              else [])
          ++ match fst (create drv entityName fields w) with
             | Thrown e => [ConsoleError "HanORM.executeQuery" e;
                            ConsoleError "HanORM.create" e]
             | Returned _ => []
             end).
Proof.
  assert (Hgen : forall (A : Type) (key : string) (m : M A) (w : world),
     fst (logMethod key m w) = fst (m w)
     /\ self (snd (logMethod key m w)) = self (snd (m w))
     /\ trace (snd (logMethod key m w)) = trace (snd (m w))
     /\ console (snd (logMethod key m w))
        = console (snd (m w))
          ++ match fst (m w) with
             | Thrown e => [ConsoleError ("HanORM." +:+ key) e]
             | Returned _ => []
             end).
  { intros A key m w. run. destruct (m w) as [[a | e] w1]; simpl;
      rewrite ?app_nil_r; auto. }
  split; [exact Hgen |].
  intros drv entityName fields w. unfold create, executeQuery, keys, values. run.
  destruct (truthy (logging (self w))); simpl;
    destruct (pool_getConnection drv _) as [e | c]; simpl;
    try destruct (conn_execute drv _ c _ _) as [e | a]; simpl;
    rewrite <- ?app_assoc, ?app_nil_r; reflexivity.
Qed.

(** ** Transactions *)

Lemma create_run (drv : Driver) (entityName : string) (fields : record) (c : conn)
    (w : world) :
  pool_getConnection drv (trace w) = inr c ->
  let sql := insertEntityQuery entityName (keys fields) in
  let r := conn_execute drv (trace w ++ [EvGetConnection (inr c)]) c sql (values fields) in
  fst (create drv entityName fields w) = ofSum r
  /\ self (snd (create drv entityName fields w)) = self w
  /\ trace (snd (create drv entityName fields w))
     = trace w ++ [EvGetConnection (inr c); EvExecute c sql (values fields) r; EvRelease c].
Proof.
  intros Hc sql r. unfold create. fold sql.
  destruct (logMethod_spec "create" (executeQuery drv sql (values fields) None) w)
    as (Hf & Hs & Ht).
  destruct (executeQuery_pool drv sql (values fields) c w Hc) as (Hf' & Hs' & Ht').
  rewrite Hf, Hs, Ht. auto.
Qed.

(** X11. A single-row operation does not join the transaction the
    caller opened with [startTransaction]: with a transaction active on
    [c], [create] takes a connection of its own from the pool, runs its
    INSERT there and releases it, and makes no call on [c].  When the
    pool's connection is another one, with no transaction of its own, the
    INSERT is visible at once and is still visible after the caller's
    [rollbackTransaction] has resolved. *)
Theorem create_runs_outside_open_transaction
    (drv : Driver) (entityName : string) (fields : record) (w : world)
    (c c' : conn) (a : qresult) :
  transactionConnection (self w) = Some c ->
  pool_getConnection drv (trace w) = inr c' ->
  c' <> c ->
  pending (replay db0 (trace w)) !! c' = None ->
  let sql := insertEntityQuery entityName (map fst fields) in
  conn_execute drv (trace w ++ [EvGetConnection (inr c')]) c' sql (map snd fields) = inr a ->
  let w1 := snd (create drv entityName fields w) in
  conn_rollback drv (trace w1) c = None ->
  let w2 := snd (rollbackTransaction drv w1) in
  added w w1 = [EvGetConnection (inr c'); EvExecute c' sql (map snd fields) (inr a);
                EvRelease c']
  /\ touching c (added w w1) = []
  /\ transactionConnection (self w1) = Some c
  /\ added w1 w2 = [EvRollback c None; EvRelease c]
  /\ transactionConnection (self w2) = None
  /\ visible (trace w1) = visible (trace w) ++ [(sql, map snd fields)]
  /\ visible (trace w2) = visible (trace w) ++ [(sql, map snd fields)].
Proof.
  intros Htc Hc Hne Hpend sql Hx w1 Hrb w2.
  destruct (create_run drv entityName fields c' w Hc) as (_ & Hs & Ht).
  unfold keys, values in Ht. fold sql in Ht. rewrite Hx in Ht. fold w1 in Hs, Ht.
  assert (Htc1 : transactionConnection (self w1) = Some c) by (rewrite Hs; exact Htc).
  assert (Hw2 : rollbackTransaction drv w1
                = (Returned (),
                   {| self := holding None (self w1);
                      trace := trace w1 ++ [EvRollback c None; EvRelease c];
                      console := console w1 |})).
  { rewrite (rollbackTransaction_active drv w1 c Htc1), Hrb. reflexivity. }
  assert (Hvis1 : visible (trace w1) = visible (trace w) ++ [(sql, map snd fields)]).
  { unfold visible. rewrite Ht, replay_app.
    set (d := replay db0 (trace w)) in *.
    rewrite !replay_cons. change (dbStep d (EvGetConnection (inr c'))) with d.
    unfold dbStep at 2. rewrite Hpend. reflexivity. }
  split; [apply added_app, Ht |].
  split.
  { rewrite (added_app _ _ _ Ht). unfold touching. simpl.
    assert (Hb : Nat.eqb c c' = false) by (apply Nat.eqb_neq; congruence).
    rewrite Hb. reflexivity. }
  split; [exact Htc1 |].
  unfold w2. rewrite Hw2. simpl.
  split; [apply added_app; reflexivity |].
  split; [reflexivity |].
  split; [exact Hvis1 |].
  unfold visible in *. rewrite replay_app. simpl. exact Hvis1.
Qed.

Lemma create_runs_outside_open_transaction_witness :
  touching 0 (added activePooled
                (snd (create pooled "users" [("name", VStr "A")] activePooled))) = []
  /\ visible (trace (snd (rollbackTransaction pooled
                            (snd (create pooled "users" [("name", VStr "A")] activePooled)))))
     = visible (trace activePooled)
       ++ [(insertEntityQuery "users" ["name"], [VStr "A"])].
Proof.
  destruct (create_runs_outside_open_transaction pooled "users" [("name", VStr "A")]
              activePooled 0 2 (QHeader 1 1) eq_refl eq_refl) as (_ & Ht & _ & _ & _ & _ & Hv).
  - discriminate.
  - reflexivity.
  - reflexivity.
  - reflexivity.
  - split; [exact Ht | exact Hv].
Defined.

(** X12. [startTransaction] does not look at the current handle.
    Called while a transaction is active on [c0], it takes another
    connection [c], begins there and makes [c] the handle; the
    [commitTransaction] that follows commits and releases [c] and leaves
    the instance idle.  No call is ever made on [c0] in between: it is
    neither committed, nor rolled back, nor released. *)
Theorem startTransaction_replaces_active_handle
    (drv : Driver) (w : world) (c0 c : conn) :
  transactionConnection (self w) = Some c0 ->
  pool_getConnection drv (trace w) = inr c ->
  c <> c0 ->
  conn_beginTransaction drv (trace w ++ [EvGetConnection (inr c)]) c = None ->
  let w1 := snd (startTransaction drv w) in
  conn_commit drv (trace w1) c = None ->
  let w2 := snd (commitTransaction drv w1) in
  fst (startTransaction drv w) = Returned (Some c)
  /\ transactionConnection (self w1) = Some c
  /\ added w w2 = [EvGetConnection (inr c); EvBeginTransaction c None;
                   EvCommit c None; EvRelease c]
  /\ touching c0 (added w w2) = []
  /\ transactionConnection (self w2) = None.
Proof.
  intros Htc Hc Hne Hb w1 Hk w2.
  unfold w2, w1 in *. rewrite (startTransaction_ok drv w c Hc Hb) in *. simpl in Hk |- *.
  match goal with
  | |- context [commitTransaction drv ?w1'] =>
      rewrite (commitTransaction_active drv w1' c eq_refl)
  end.
  simpl. rewrite Hk. simpl.
  assert (Hadd : added w
            {| self := holding None (holding (Some c) (self w));
               trace := (trace w ++ [EvGetConnection (inr c); EvBeginTransaction c None])
                        ++ [EvCommit c None; EvRelease c];
               console := console w |}
          = [EvGetConnection (inr c); EvBeginTransaction c None;
             EvCommit c None; EvRelease c]).
  { apply added_app. simpl. rewrite <- app_assoc. reflexivity. }
  rewrite Hadd.
  repeat split.
  unfold touching. simpl.
  assert (Hneq : Nat.eqb c0 c = false) by (apply Nat.eqb_neq; congruence).
  rewrite Hneq. reflexivity.
Qed.

Lemma startTransaction_replaces_active_handle_witness :
  touching 0 (added activePooled
                (snd (commitTransaction pooled (snd (startTransaction pooled activePooled)))))
  = []
  /\ transactionConnection
       (self (snd (commitTransaction pooled (snd (startTransaction pooled activePooled)))))
     = None.
Proof.
  destruct (startTransaction_replaces_active_handle pooled activePooled 0 2 eq_refl eq_refl)
    as (_ & _ & _ & Ht & Hidle).
  - discriminate.
  - reflexivity.
  - reflexivity.
  - split; [exact Ht | exact Hidle].
Defined.

(** X13. The two ways [startTransaction] fails.  When the pool gives no
    connection it throws the pool's error and the handle is as before.
    When BEGIN is rejected it throws that error with the handle already
    set to the new connection, which is not released; [createMany] then
    throws the same error without any ROLLBACK or release, and leaves the
    instance with that handle. *)
Theorem startTransaction_failures (drv : Driver) (w : world) :
  (forall e, pool_getConnection drv (trace w) = inl e ->
     startTransaction drv w
     = (Thrown e,
        {| self := self w;
           trace := trace w ++ [EvGetConnection (inl e)];
           console := console w |}))
  /\ (forall c e,
        pool_getConnection drv (trace w) = inr c ->
        conn_beginTransaction drv (trace w ++ [EvGetConnection (inr c)]) c = Some e ->
        startTransaction drv w
        = (Thrown e,
           {| self := holding (Some c) (self w);
              trace := trace w ++ [EvGetConnection (inr c); EvBeginTransaction c (Some e)];
              console := console w |})
        /\ forall entityName entities,
             fst (createMany drv entityName entities w) = Thrown e
             /\ transactionConnection (self (snd (createMany drv entityName entities w)))
                = Some c
             /\ added w (snd (createMany drv entityName entities w))
                = [EvGetConnection (inr c); EvBeginTransaction c (Some e)]).
Proof.
  split.
  - intros e Hc. unfold startTransaction. run. rewrite Hc. simpl.
    destruct w; reflexivity.
  - intros c e Hc Hb.
    assert (Hstart : startTransaction drv w
        = (Thrown e,
           {| self := holding (Some c) (self w);
              trace := trace w ++ [EvGetConnection (inr c); EvBeginTransaction c (Some e)];
              console := console w |})).
    { unfold startTransaction. run. rewrite Hc. simpl. rewrite Hb. simpl.
      rewrite <- app_assoc. reflexivity. }
    split; [exact Hstart |].
    intros entityName entities. unfold createMany.
    match goal with
    | |- context [logMethod "createMany" ?body w] =>
        destruct (logMethod_run "createMany" body w) as (o & w' & Hbody & Hf & Hs & Ht)
    end.
    unfold added. rewrite Hf, Hs, Ht.
    cbv [mbind M_bind] in Hbody. rewrite Hstart in Hbody.
    inversion Hbody; subst o w'. simpl.
    repeat split. rewrite drop_app_length. reflexivity.
Qed.

Lemma startTransaction_failures_witness :
  fst (createMany noBegin "users" [[("name", VStr "A")]] idle)
  = Thrown (DriverError "ER_CANT_BEGIN")
  /\ transactionConnection (self (snd (createMany noBegin "users" [[("name", VStr "A")]] idle)))
     = Some 7
  /\ added idle (snd (createMany noBegin "users" [[("name", VStr "A")]] idle))
     = [EvGetConnection (inr 7); EvBeginTransaction 7 (Some (DriverError "ER_CANT_BEGIN"))].
Proof.
  destruct (startTransaction_failures noBegin idle) as (_ & H).
  destruct (H 7 (DriverError "ER_CANT_BEGIN") eq_refl eq_refl) as (_ & Hmany).
  exact (Hmany "users" [[("name", VStr "A")]]).
Defined.

Lemma holding_round_trip (i : instance) (c : conn) :
  transactionConnection i = None -> holding None (holding (Some c) i) = i.
Proof. destruct i. simpl. intros ->. reflexivity. Qed.

(** X14. From an idle instance, [startTransaction] followed by
    [commitTransaction] (or by [rollbackTransaction]) brings the instance
    back to exactly the state it had: the only trace of the pair is the
    four calls get-connection, BEGIN, COMMIT (or ROLLBACK), release, all
    on the one connection, which is held, acquired and not released, from
    the start until then. *)
Theorem transaction_round_trip (drv : Driver) (w : world) (c : conn) :
  transactionConnection (self w) = None ->
  pool_getConnection drv (trace w) = inr c ->
  conn_beginTransaction drv (trace w ++ [EvGetConnection (inr c)]) c = None ->
  let w1 := snd (startTransaction drv w) in
  (conn_commit drv (trace w1) c = None ->
     commitTransaction drv w1
     = (Returned (),
        {| self := self w;
           trace := trace w ++ [EvGetConnection (inr c); EvBeginTransaction c None;
                                EvCommit c None; EvRelease c];
           console := console w |}))
  /\ (conn_rollback drv (trace w1) c = None ->
        rollbackTransaction drv w1
        = (Returned (),
           {| self := self w;
              trace := trace w ++ [EvGetConnection (inr c); EvBeginTransaction c None;
                                   EvRollback c None; EvRelease c];
              console := console w |}))
  /\ acquisitions (added w w1) = 1
  /\ releases (added w w1) = 0.
Proof.
  intros Hidle Hc Hb w1. unfold w1. rewrite (startTransaction_ok drv w c Hc Hb). simpl.
  split; [| split; [| split]].
  - intros Hk.
    match goal with
    | |- commitTransaction drv ?w1' = _ =>
        rewrite (commitTransaction_active drv w1' c eq_refl)
    end.
    simpl. rewrite Hk, (holding_round_trip _ c Hidle), <- app_assoc. reflexivity.
  - intros Hr.
    match goal with
    | |- rollbackTransaction drv ?w1' = _ =>
        rewrite (rollbackTransaction_active drv w1' c eq_refl)
    end.
    simpl. rewrite Hr, (holding_round_trip _ c Hidle), <- app_assoc. reflexivity.
  - unfold added. simpl. rewrite drop_app_length. reflexivity.
  - unfold added. simpl. rewrite drop_app_length. reflexivity.
Qed.

Lemma transaction_round_trip_witness :
  commitTransaction accepting (snd (startTransaction accepting idle))
  = (Returned (),
     {| self := self idle;
        trace := [EvGetConnection (inr 7); EvBeginTransaction 7 None;
                  EvCommit 7 None; EvRelease 7];
        console := [] |}).
Proof.
  destruct (transaction_round_trip accepting idle 7 eq_refl eq_refl eq_refl) as (Hk & _).
  exact (Hk eq_refl).
Defined.

(** ** [updateMany] *)

(** The loop of [updateMany]: either every id is updated, or the ids
    before the first rejected one are and the loop throws that error. *)
Lemma updateManyLoop_spec (drv : Driver) (n : string) (c : conn) (fields : record)
    (ids : list Z) :
  forall (acc : list qresult) (w : world),
    self (snd (updateManyLoop drv n (Some c) fields ids acc w)) = self w
    /\ ((exists results,
           length results = length ids
           /\ fst (updateManyLoop drv n (Some c) fields ids acc w) = Returned (acc ++ results)
           /\ trace (snd (updateManyLoop drv n (Some c) fields ids acc w))
              = trace w ++ executed c (map (updateOf n fields) ids) results)
        \/ (exists results id e,
              ids !! length results = Some id
              /\ fst (updateManyLoop drv n (Some c) fields ids acc w) = Thrown e
              /\ trace (snd (updateManyLoop drv n (Some c) fields ids acc w))
                 = trace w
                   ++ executed c (map (updateOf n fields) (take (length results) ids)) results
                   ++ [EvExecute c (updateEntityQuery n (keys fields))
                         (values fields ++ [VNum id]) (inl e);
                       EvRelease c])).
Proof.
  induction ids as [| id rest IH]; intros acc w.
  - split; [reflexivity |]. left. exists []. simpl.
    rewrite !app_nil_r. auto.
  - simpl updateManyLoop. cbv [mbind M_bind].
    set (q := updateEntityQuery n (keys fields)).
    set (ps := values fields ++ [VNum id]).
    destruct (executeQuery_tx drv q ps c w) as (Hf & Hs & Ht).
    destruct (executeQuery drv q ps (Some c) w) as [[a | e] w1]; simpl in Hf, Hs, Ht.
    + destruct (conn_execute drv (trace w) c q ps) as [e' | a'] eqn:Hx; simpl in Hf;
        [discriminate Hf |].
      inversion Hf; subst a'; clear Hf.
      destruct (IH (acc ++ [a]) w1) as (Hs' & [Hall | Hfail]).
      * split; [congruence |]. left.
        destruct Hall as (results & Hlen & Hfst & Htr).
        exists (a :: results). simpl. rewrite Hlen.
        split; [reflexivity |]. split.
        -- rewrite Hfst, <- app_assoc. reflexivity.
        -- rewrite Htr, Ht, <- app_assoc. reflexivity.
      * split; [congruence |]. right.
        destruct Hfail as (results & id' & e & Hrow & Hfst & Htr).
        exists (a :: results), id', e. simpl.
        split; [exact Hrow |]. split; [exact Hfst |].
        rewrite Htr, Ht, <- app_assoc. reflexivity.
    + destruct (conn_execute drv (trace w) c q ps) as [e' | a'] eqn:Hx; simpl in Hf;
        [| discriminate Hf].
      inversion Hf; subst e'; clear Hf.
      split; [exact Hs |]. right.
      exists [], id, e. simpl. split; [reflexivity |]. split; [reflexivity |].
      exact Ht.
Qed.

(** X15. [updateMany] is one transaction.  Once the pool has given a
    connection [c] and BEGIN has resolved, the UPDATEs of the ids run one
    after the other in input order on [c], each with the same text and
    with the field values followed by its id as parameters.  Either every
    id is updated and [commit] is called exactly once, after the last
    UPDATE (when it resolves the results are returned and the handle is
    cleared); or some UPDATE is rejected, no later id is tried, [commit]
    is never called, [rollback] is called, and when it resolves that
    error is thrown again, the handle is cleared, and no UPDATE of the
    batch is visible. *)
Theorem updateMany_one_transaction_all_or_nothing
    (drv : Driver) (entityName : string) (ids : list Z) (fields : record)
    (w : world) (c : conn) :
  pool_getConnection drv (trace w) = inr c ->
  conn_beginTransaction drv (trace w ++ [EvGetConnection (inr c)]) c = None ->
  let run := updateMany drv entityName ids fields w in
  let opened := [EvGetConnection (inr c); EvBeginTransaction c None] in
  let stmtOf := fun id : Z =>
    (updateEntityQuery entityName (map fst fields), map snd fields ++ [VNum id]) in
  (exists results rc rest,
     length results = length ids
     /\ added w (snd run)
        = opened ++ executed c (map stmtOf ids) results ++ EvCommit c rc :: rest
     /\ commits (added w (snd run)) = 1
     /\ (rc = None ->
           fst run = Returned results
           /\ rest = [EvRelease c]
           /\ rollbacks (added w (snd run)) = 0
           /\ transactionConnection (self (snd run)) = None))
  \/ (exists results id e rb rest,
        ids !! length results = Some id
        /\ added w (snd run)
           = opened ++ executed c (map stmtOf (take (length results) ids)) results
             ++ [EvExecute c (fst (stmtOf id)) (snd (stmtOf id)) (inl e);
                 EvRelease c; EvRollback c rb] ++ rest
        /\ commits (added w (snd run)) = 0
        /\ (rb = None ->
              fst run = Thrown e
              /\ rest = [EvRelease c]
              /\ transactionConnection (self (snd run)) = None
              /\ visible (trace (snd run)) = visible (trace w ++ opened))).
Proof.
  intros Hc Hb run opened upd.
  change upd with (updateOf entityName fields) in *.
  unfold run, updateMany.
  match goal with
  | |- context [logMethod "updateMany" ?body w] =>
      destruct (logMethod_run "updateMany" body w) as (o & w' & Hbody & Hf & Hs & Ht)
  end.
  unfold added. rewrite Hf, Hs, Ht. clear Hf Hs Ht.
  cbv [mbind M_bind] in Hbody. rewrite (startTransaction_ok drv w c Hc Hb) in Hbody.
  cbv [tryCatch mbind M_bind mret M_ret throw] in Hbody.
  set (w1 := {| self := holding (Some c) (self w);
                trace := trace w ++ [EvGetConnection (inr c); EvBeginTransaction c None];
                console := console w |}) in *.
  destruct (updateManyLoop_spec drv entityName c fields ids [] w1) as (Hself & Hloop).
  destruct (updateManyLoop drv entityName (Some c) fields ids [] w1) as [[res | e] w2];
    simpl in Hself, Hloop.
  - destruct Hloop as [(results & Hlen & Hres & Htr) | (? & ? & ? & _ & Hres & _)];
      [| discriminate Hres].
    inversion Hres; subst res; clear Hres.
    assert (Htc : transactionConnection (self w2) = Some c) by (rewrite Hself; reflexivity).
    rewrite (commitTransaction_active drv w2 c Htc) in Hbody.
    destruct (counts_executed c (map (updateOf entityName fields) ids) results)
      as [Hci Hri].
    left. destruct (conn_commit drv (trace w2) c) as [e |].
    + rewrite (rollbackTransaction_active drv
                 {| self := self w2;
                    trace := trace w2 ++ [EvCommit c (Some e)];
                    console := console w2 |} c Htc) in Hbody.
      simpl in Hbody.
      destruct (conn_rollback drv (trace w2 ++ [EvCommit c (Some e)]) c) as [e' |];
        inversion Hbody; subst o w'; clear Hbody; simpl; rewrite Htr; unfold w1; simpl;
        rewrite <- !app_assoc, drop_app_length.
      * exists results, (Some e), [EvRollback c (Some e')].
        split; [exact Hlen |]. split; [reflexivity |].
        split; [| intros H; discriminate H].
        rewrite !commits_app, Hci. reflexivity.
      * exists results, (Some e), [EvRollback c None; EvRelease c].
        split; [exact Hlen |]. split; [reflexivity |].
        split; [| intros H; discriminate H].
        rewrite !commits_app, Hci. reflexivity.
    + inversion Hbody; subst o w'; clear Hbody; simpl; rewrite Htr; unfold w1; simpl;
        rewrite <- !app_assoc, drop_app_length.
      exists results, None, [EvRelease c].
      split; [exact Hlen |]. split; [reflexivity |].
      split; [rewrite !commits_app, Hci; reflexivity |].
      intros _. split; [reflexivity |]. split; [reflexivity |].
      split; [rewrite !rollbacks_app, Hri; reflexivity | reflexivity].
  - destruct Hloop as [(? & _ & Hres & _) | (results & id & e' & Hrow & Hres & Htr)];
      [discriminate Hres |].
    inversion Hres; subst e'; clear Hres.
    assert (Htc : transactionConnection (self w2) = Some c) by (rewrite Hself; reflexivity).
    rewrite (rollbackTransaction_active drv w2 c Htc) in Hbody.
    right.
    destruct (counts_executed c
                (map (updateOf entityName fields) (take (length results) ids))
                results) as [Hci Hri].
    destruct (conn_rollback drv (trace w2) c) as [e' |];
      inversion Hbody; subst o w'; clear Hbody; simpl; rewrite Htr; unfold w1; simpl;
      rewrite <- !app_assoc, drop_app_length.
    + exists results, id, e, (Some e'), [].
      split; [exact Hrow |]. split; [reflexivity |].
      split; [rewrite !commits_app, Hci; reflexivity | intros H; discriminate H].
    + exists results, id, e, None, [EvRelease c].
      split; [exact Hrow |]. split; [reflexivity |].
      split; [rewrite !commits_app, Hci; reflexivity |].
      intros _. split; [reflexivity |]. split; [reflexivity |].
      split; [reflexivity |].
      apply (visible_after_rollback_executed (trace w) c).
Qed.

Lemma updateMany_one_transaction_all_or_nothing_witness :
  commits (added idle (snd (updateMany accepting "users" [1; 2; 3]%Z
                              [("name", VStr "J")] idle))) = 1
  /\ fst (updateMany accepting "users" [1; 2]%Z [("name", VStr "J")] idle)
     = Returned [QHeader 1 2; QHeader 1 4]
  /\ statements (added idle (snd (updateMany accepting "users" [1; 2]%Z
                                    [("name", VStr "J")] idle)))
     = [(updateEntityQuery "users" ["name"], [VStr "J"; VNum 1]);
        (updateEntityQuery "users" ["name"], [VStr "J"; VNum 2])].
Proof.
  split; [| split; reflexivity].
  destruct (updateMany_one_transaction_all_or_nothing accepting "users" [1; 2; 3]%Z
              [("name", VStr "J")] idle 7 eq_refl eq_refl)
    as [(results & rc & rest & _ & _ & H1 & _) | (results & id & e & rb & rest & _ & _ & H0 & _)].
  - exact H1.
  - vm_compute in H0. discriminate H0.
Defined.

(** ** [deleteMany] on the empty list and on one id *)

(** X16. [deleteMany] on the empty list opens a transaction and leaves
    it open: it returns with the handle still set to the new connection,
    after a BEGIN and nothing else -- no COMMIT, no ROLLBACK, no release.
    [createMany] on the empty list, by contrast, commits the empty
    transaction, releases the connection and clears the handle. *)
Theorem deleteMany_empty_leaves_transaction_open
    (drv : Driver) (entityName : string) (w : world) (c : conn) :
  pool_getConnection drv (trace w) = inr c ->
  conn_beginTransaction drv (trace w ++ [EvGetConnection (inr c)]) c = None ->
  deleteMany drv entityName [] w
  = (Returned (),
     {| self := holding (Some c) (self w);
        trace := trace w ++ [EvGetConnection (inr c); EvBeginTransaction c None];
        console := console w |})
  /\ (conn_commit drv (trace w ++ [EvGetConnection (inr c); EvBeginTransaction c None]) c
      = None ->
      createMany drv entityName [] w
      = (Returned [],
         {| self := holding None (holding (Some c) (self w));
            trace := trace w ++ [EvGetConnection (inr c); EvBeginTransaction c None;
                                 EvCommit c None; EvRelease c];
            console := console w |})).
Proof.
  intros Hc Hb. split.
  - unfold deleteMany, logMethod, tryCatch. cbv [mbind M_bind].
    rewrite (startTransaction_ok drv w c Hc Hb). reflexivity.
  - intros Hk. unfold createMany, logMethod, tryCatch. cbv [mbind M_bind].
    rewrite (startTransaction_ok drv w c Hc Hb). simpl createManyLoop.
    cbv [mret M_ret].
    match goal with
    | |- context [commitTransaction drv ?w1] =>
        rewrite (commitTransaction_active drv w1 c eq_refl)
    end.
    simpl. rewrite Hk, <- app_assoc. reflexivity.
Qed.

Lemma deleteMany_empty_leaves_transaction_open_witness :
  deleteMany accepting "users" [] idle = (Returned (), active)
  /\ transactionConnection (self (snd (createMany accepting "users" [] idle))) = None.
Proof.
  destruct (deleteMany_empty_leaves_transaction_open accepting "users" idle 7
              eq_refl eq_refl) as [Hd Hc].
  split; [exact Hd |]. rewrite (Hc eq_refl). reflexivity.
Defined.



(** ** Sync mode *)

(** What one [executeQuery] on a connection of its own adds: its
    statement, unless the pool gave no connection. *)
Lemma executeQuery_pool_cases (drv : Driver) (q : string) (ps : list value) (w : world) :
  exists evs,
    trace (snd (executeQuery drv q ps None w)) = trace w ++ evs
    /\ self (snd (executeQuery drv q ps None w)) = self w
    /\ ((statements evs = [] /\ exists e, fst (executeQuery drv q ps None w) = Thrown e)
        \/ statements evs = [(q, ps)]).
Proof.
  destruct (pool_getConnection drv (trace w)) as [e | c] eqn:Hc.
  - destruct (executeQuery_pool_fail drv q ps e w Hc) as (Hf & Hs & Ht).
    eexists. split; [exact Ht |]. split; [exact Hs |]. left. split; [reflexivity | eauto].
  - destruct (executeQuery_pool drv q ps c w Hc) as (Hf & Hs & Ht).
    eexists. split; [exact Ht |]. split; [exact Hs |]. right. reflexivity.
Qed.

Lemma statements_app (a b : list event) : statements (a ++ b) = statements a ++ statements b.
Proof. unfold statements. apply flat_map_app. Qed.

(** X18. Sync mode is destructive and comes first.  With [sync] off,
    [createTable] sends the CREATE TABLE and nothing else.  With [sync]
    on, the first statement it sends is [DROP TABLE IF EXISTS] of that
    table; when the driver rejects the DROP, [createTable] throws that
    error and the CREATE TABLE is never sent; when the DROP resolves, the
    only statement that can follow is the CREATE TABLE, and it has
    followed whenever [createTable] returns. *)
Theorem createTable_sync_drops_first
    (drv : Driver) (entityName : string) (fields : EntityFields) (w : world) (c : conn) :
  pool_getConnection drv (trace w) = inr c ->
  let run := createTable drv entityName fields w in
  let dropSql := "DROP TABLE IF EXISTS " +:+ entityName in
  let createSql := createTableQuery entityName fields in
  (truthy (sync (self w)) = false ->
     statements (added w (snd run)) = [(createSql, [])])
  /\ (truthy (sync (self w)) = true ->
        (forall e,
           conn_execute drv (trace w ++ [EvGetConnection (inr c)]) c dropSql [] = inl e ->
           fst run = Thrown e /\ statements (added w (snd run)) = [(dropSql, [])])
        /\ (forall a,
              conn_execute drv (trace w ++ [EvGetConnection (inr c)]) c dropSql [] = inr a ->
              (statements (added w (snd run)) = [(dropSql, [])]
               /\ exists e, fst run = Thrown e)
              \/ statements (added w (snd run)) = [(dropSql, []); (createSql, [])])).
Proof.
  intros Hc run dropSql createSql. unfold run, createTable.
  match goal with
  | |- context [logMethod "createTable" ?body w] =>
      destruct (logMethod_run "createTable" body w) as (o & w' & Hbody & Hf & Hs & Ht)
  end.
  unfold added. rewrite Hf, Ht. clear Hf Hs Ht.
  cbv [mbind M_bind mret M_ret getSync] in Hbody. fold createSql in Hbody.
  split.
  - intros Hsync. rewrite Hsync in Hbody.
    destruct (executeQuery_pool drv createSql [] c w Hc) as (_ & _ & Ht).
    destruct (executeQuery drv createSql [] None w) as [[a | e] w1]; simpl in Ht;
      inversion Hbody; subst o w'; rewrite Ht, drop_app_length; reflexivity.
  - intros Hsync. rewrite Hsync in Hbody.
    unfold dropTable in Hbody. change (dropTableQuery entityName) with dropSql in Hbody.
    destruct (logMethod_spec "dropTable" (executeQuery drv dropSql [] None) w)
      as (Hf1 & Hs1 & Ht1).
    destruct (executeQuery_pool drv dropSql [] c w Hc) as (Hf0 & Hs0 & Ht0).
    rewrite Hf0 in Hf1. rewrite Ht0 in Ht1. clear Hf0 Hs0 Ht0 Hs1.
    destruct (logMethod "dropTable" (executeQuery drv dropSql [] None) w) as [[a1 | e1] w1];
      simpl in Hf1, Ht1.
    + split.
      * intros e Hx. rewrite Hx in Hf1. discriminate Hf1.
      * intros a Hx.
        destruct (executeQuery_pool_cases drv createSql [] w1) as (evs & Ht2 & _ & Hst).
        assert (Hw' : trace w' = trace (snd (executeQuery drv createSql [] None w1))
                      /\ (forall e, fst (executeQuery drv createSql [] None w1) = Thrown e
                                    -> o = Thrown e)).
        { destruct (executeQuery drv createSql [] None w1) as [[a2 | e2] w2];
            inversion Hbody; subst o w'; split; try reflexivity;
            intros e He; simpl in He; congruence. }
        destruct Hw' as [Hw' Ho]. rewrite Hw', Ht2, Ht1, <- app_assoc, drop_app_length.
        rewrite Hx. simpl app.
        change (EvGetConnection (inr c) :: EvExecute c dropSql [] (inr a) :: EvRelease c :: evs)
          with ([EvGetConnection (inr c); EvExecute c dropSql [] (inr a); EvRelease c] ++ evs).
        rewrite statements_app. simpl.
        destruct Hst as [[Hnone [e He]] | Hone].
        -- left. rewrite Hnone. split; [reflexivity |]. exists e. apply Ho, He.
        -- right. rewrite Hone. reflexivity.
    + inversion Hbody; subst o w'. split.
      * intros e Hx. rewrite Hx in Hf1, Ht1. simpl in Hf1. inversion Hf1; subst e1.
        split; [reflexivity |]. rewrite Ht1, drop_app_length. reflexivity.
      * intros a Hx. rewrite Hx in Hf1. discriminate Hf1.
Qed.

Lemma createTable_sync_drops_first_witness :
  statements (added syncing (snd (createTable accepting "User" [("age", ageField)] syncing)))
  = [("DROP TABLE IF EXISTS User", []); (createTableQuery "User" [("age", ageField)], [])]
  /\ statements (added syncing
       (snd (createTable rejectingAll "User" [("age", ageField)] syncing)))
     = [("DROP TABLE IF EXISTS User", [])]
  /\ statements (added idle (snd (createTable accepting "User" [("age", ageField)] idle)))
     = [(createTableQuery "User" [("age", ageField)], [])].
Proof.
  split; [| split].
  - destruct (createTable_sync_drops_first accepting "User" [("age", ageField)] syncing 7
                eq_refl) as (_ & Hon).
    destruct (Hon eq_refl) as (_ & Hok).
    destruct (Hok (QHeader 1 1) eq_refl) as [[_ [e He]] | H]; [| exact H].
    vm_compute in He. discriminate He.
  - destruct (createTable_sync_drops_first rejectingAll "User" [("age", ageField)] syncing 7
                eq_refl) as (_ & Hon).
    destruct (Hon eq_refl) as (Hbad & _).
    destruct (Hbad (DriverError "ER_DUP_ENTRY") eq_refl) as (_ & H). exact H.
  - destruct (createTable_sync_drops_first accepting "User" [("age", ageField)] idle 7
                eq_refl) as (Hoff & _).
    exact (Hoff eq_refl).
Defined.

(** ** Constructing twice, releasing inside a transaction, the facade *)

(** X19. An options object serves once.  Constructing a second instance
    from the object a first instance was constructed from gives an
    instance whose [sync] and [logging] are [false], whatever the caller
    had written there: the first construction deleted both keys.  The
    pool configuration is the same for both, and the second construction
    changes nothing more in the heap. *)
Theorem constructor_twice_loses_flags
    (h : gmap ref (gmap string value)) (r : ref) (o : gmap string value) :
  h !! r = Some o ->
  exists i1 h1 i2,
    constructor h r = Some (i1, h1)
    /\ constructor h1 r = Some (i2, h1)
    /\ sync i1 = nullish (prop o "sync") (VBool false)
    /\ logging i1 = nullish (prop o "logging") (VBool false)
    /\ sync i2 = VBool false
    /\ logging i2 = VBool false
    /\ pool i2 = pool i1.
Proof.
  intros Hr. unfold constructor at 1. rewrite Hr.
  set (o2 := base.delete "logging" (base.delete "sync" o)).
  assert (Hs : o2 !! "sync" = None).
  { unfold o2. rewrite lookup_delete_ne by discriminate. apply lookup_delete_eq. }
  assert (Hl : o2 !! "logging" = None) by apply lookup_delete_eq.
  assert (Hid : base.delete "logging" (base.delete "sync" o2) = o2).
  { rewrite (delete_id o2 "sync" Hs). apply delete_id, Hl. }
  eexists _, _, _. split; [reflexivity |].
  unfold constructor. rewrite lookup_insert_eq. rewrite Hid, insert_insert_eq.
  split; [reflexivity |]. simpl.
  unfold prop. rewrite Hs, Hl. repeat split.
Qed.

Lemma constructor_twice_loses_flags_witness :
  exists i1 h1 i2,
    constructor callerHeap 0 = Some (i1, h1)
    /\ constructor h1 0 = Some (i2, h1)
    /\ sync i1 = VBool true
    /\ logging i1 = VBool true
    /\ sync i2 = VBool false
    /\ logging i2 = VBool false
    /\ pool i2 = pool i1.
Proof.
  exact (constructor_twice_loses_flags callerHeap 0 callerOptions eq_refl).
Defined.

Lemma counts_inserts (c : conn) (n : string) (rows : list record) :
  forall results : list qresult,
    length results = length rows ->
    releases (inserts c n rows results) = length rows
    /\ acquisitions (inserts c n rows results) = 0.
Proof.
  induction rows as [| row rows IH]; intros [| r results] Hlen; try discriminate Hlen;
    [split; reflexivity |].
  simpl in Hlen. destruct (IH results) as [Hr Ha]; [congruence |].
  unfold releases, acquisitions in *. simpl. rewrite Hr, Ha. split; reflexivity.
Qed.

Lemma releases_app (a b : list event) : releases (a ++ b) = releases a + releases b.
Proof. unfold releases. rewrite List.filter_app, length_app. reflexivity. Qed.

Lemma acquisitions_app (a b : list event) :
  acquisitions (a ++ b) = acquisitions a + acquisitions b.
Proof. unfold acquisitions. rewrite List.filter_app, length_app. reflexivity. Qed.

(** X20. A bulk operation gives its connection back too early and too
    often.  Whenever [createMany] returns, the one connection it acquired
    has been released once after every INSERT and once more after the
    COMMIT: one release more than there are rows, against one
    acquisition; with at least one row, the first release comes before
    the COMMIT, while the transaction is still open. *)
Theorem createMany_releases_after_every_row
    (drv : Driver) (entityName : string) (entities : list record) (w w' : world)
    (c : conn) (results : list qresult) :
  pool_getConnection drv (trace w) = inr c ->
  conn_beginTransaction drv (trace w ++ [EvGetConnection (inr c)]) c = None ->
  createMany drv entityName entities w = (Returned results, w') ->
  length results = length entities
  /\ acquisitions (added w w') = 1
  /\ releases (added w w') = length entities + 1
  /\ forall row rows r rs,
       entities = row :: rows -> results = r :: rs ->
       exists rest,
         added w w'
         = [EvGetConnection (inr c); EvBeginTransaction c None;
            EvExecute c (insertEntityQueryMany entityName (map fst row)) (map snd row) (inr r);
            EvRelease c] ++ rest
         /\ commits rest = 1.
Proof.
  intros Hc Hb Hrun. unfold createMany in Hrun.
  match type of Hrun with
  | logMethod _ ?body _ = _ =>
      destruct (logMethod_run "createMany" body w) as (o & w1' & Hbody & Hf & _ & Ht);
      rewrite Hrun in Hf, Ht; simpl in Hf, Ht; subst o; clear Hrun
  end.
  unfold added. rewrite Ht. clear Ht.
  cbv [mbind M_bind] in Hbody. rewrite (startTransaction_ok drv w c Hc Hb) in Hbody.
  cbv [tryCatch mbind M_bind mret M_ret throw] in Hbody.
  set (w1 := {| self := holding (Some c) (self w);
                trace := trace w ++ [EvGetConnection (inr c); EvBeginTransaction c None];
                console := console w |}) in *.
  destruct (createManyLoop_spec drv entityName c entities [] w1) as (Hself & Hloop).
  destruct (createManyLoop drv entityName (Some c) entities [] w1) as [[res | e] w2];
    simpl in Hself, Hloop.
  - destruct Hloop as [(results' & Hlen & Hres & Htr) | (? & ? & ? & _ & Hres & _)];
      [| discriminate Hres].
    inversion Hres; subst res; clear Hres.
    assert (Htc : transactionConnection (self w2) = Some c) by (rewrite Hself; reflexivity).
    rewrite (commitTransaction_active drv w2 c Htc) in Hbody.
    destruct (conn_commit drv (trace w2) c) as [e |].
    + rewrite (rollbackTransaction_active drv
                 {| self := self w2;
                    trace := trace w2 ++ [EvCommit c (Some e)];
                    console := console w2 |} c Htc) in Hbody.
      simpl in Hbody.
      destruct (conn_rollback drv (trace w2 ++ [EvCommit c (Some e)]) c);
        inversion Hbody.
    + inversion Hbody; subst results' w1'; clear Hbody. simpl. rewrite Htr. unfold w1. simpl.
      rewrite <- !app_assoc, drop_app_length.
      destruct (counts_inserts c entityName entities results Hlen) as [Hrel Hacq].
      destruct (commits_inserts c entityName entities results) as [Hci _].
      split; [exact Hlen |].
      split.
      { change (EvGetConnection (inr c) :: EvBeginTransaction c None
                :: inserts c entityName entities results ++ [EvCommit c None; EvRelease c])
          with ([EvGetConnection (inr c); EvBeginTransaction c None]
                ++ inserts c entityName entities results ++ [EvCommit c None; EvRelease c]).
        rewrite !acquisitions_app, Hacq. reflexivity. }
      split.
      { change (EvGetConnection (inr c) :: EvBeginTransaction c None
                :: inserts c entityName entities results ++ [EvCommit c None; EvRelease c])
          with ([EvGetConnection (inr c); EvBeginTransaction c None]
                ++ inserts c entityName entities results ++ [EvCommit c None; EvRelease c]).
        rewrite !releases_app, Hrel. unfold releases. simpl. lia. }
      intros row rows r rs -> ->. simpl.
      eexists. split; [reflexivity |].
      rewrite commits_app.
      destruct (commits_inserts c entityName rows rs) as [-> _]. reflexivity.
  - destruct Hloop as [(? & _ & Hres & _) | (results' & row & e' & Hrow & Hres & Htr)];
      [discriminate Hres |].
    assert (Htc : transactionConnection (self w2) = Some c) by (rewrite Hself; reflexivity).
    rewrite (rollbackTransaction_active drv w2 c Htc) in Hbody.
    destruct (conn_rollback drv (trace w2) c); inversion Hbody.
Qed.

Lemma createMany_releases_after_every_row_witness :
  acquisitions (added idle (snd (createMany accepting "users"
                                   [[("name", VStr "A")]; [("name", VStr "B")]] idle))) = 1
  /\ releases (added idle (snd (createMany accepting "users"
                                  [[("name", VStr "A")]; [("name", VStr "B")]] idle))) = 3.
Proof.
  destruct (createMany_releases_after_every_row accepting "users"
              [[("name", VStr "A")]; [("name", VStr "B")]] idle
              (snd (createMany accepting "users"
                      [[("name", VStr "A")]; [("name", VStr "B")]] idle))
              7 [QHeader 1 2; QHeader 1 4] eq_refl eq_refl eq_refl) as (_ & Ha & Hr & _).
  split; [exact Ha | exact Hr].
Defined.

(** X21. [createModel] does to the world exactly what [createTable]
    does, throws exactly when [createTable] throws, and otherwise returns
    a facade bound to the entity name.  Through the facade, [find] passes
    on the conditions and the column list only: whatever the caller
    intends, the statement it sends has an empty ORDER BY line and an
    empty LIMIT line.  [create] and [count] through the facade are those
    of the instance on that entity, and [join] takes its own two tables,
    not the entity's. *)
Theorem createModel_facade
    (drv : Driver) (entityName : string) (fields : EntityFields) (w : world) :
  snd (createModel drv entityName fields w) = snd (createTable drv entityName fields w)
  /\ (forall e, fst (createModel drv entityName fields w) = Thrown e
                <-> fst (createTable drv entityName fields w) = Thrown e)
  /\ forall m, fst (createModel drv entityName fields w) = Returned m ->
       fst (createTable drv entityName fields w) = Returned ()
       /\ (forall conditions columns w2 c,
             pool_getConnection drv (trace w2) = inr c ->
             statements (added w2 (snd (em_find m conditions columns w2)))
             = [(nl +:+ "        SELECT " +:+ selectList columns
                 +:+ nl +:+ "        FROM " +:+ entityName
                 +:+ nl +:+ "        " +:+ conditionString (escape drv) conditions
                 +:+ nl +:+ "        "
                 +:+ nl +:+ "        "
                 +:+ nl +:+ "      ", [])])
       /\ (forall data w2, em_create m data w2 = create drv entityName data w2)
       /\ (forall conditions w2, em_count m conditions w2 = count drv entityName conditions w2)
       /\ (forall joinType table1 table2 joinConditions selectFields w2,
             em_join m joinType table1 table2 joinConditions selectFields w2
             = HanORM.join drv joinType table1 table2 joinConditions selectFields w2).
Proof.
  unfold createModel. cbv [mbind M_bind mret M_ret].
  destruct (createTable drv entityName fields w) as [[[] | e] w1]; simpl.
  - split; [reflexivity |].
    split; [intros e; split; intros H; discriminate H |].
    intros m Hm. inversion Hm; subst m; clear Hm. simpl.
    split; [reflexivity |].
    split; [| repeat split].
    intros conditions columns w2 c Hc. unfold find.
    match goal with
    | |- context [executeQuery drv ?q [] None] =>
        destruct (logged_query drv "find" q [] c w2 Hc) as [Ht _]
    end.
    rewrite Ht. reflexivity.
  - split; [reflexivity |].
    split; [intros e'; split; intros H; inversion H; reflexivity |].
    intros m Hm. discriminate Hm.
Qed.

Lemma createModel_facade_witness :
  exists m,
    fst (createModel accepting "User" [("age", ageField)] idle) = Returned m
    /\ statements (added idle (snd (em_find m (Some [("age", VNum 26)]) None idle)))
       = [(nl +:+ "        SELECT *"
           +:+ nl +:+ "        FROM User"
           +:+ nl +:+ "        WHERE age = 26"
           +:+ nl +:+ "        "
           +:+ nl +:+ "        "
           +:+ nl +:+ "      ", [])].
Proof.
  destruct (createModel_facade accepting "User" [("age", ageField)] idle) as (_ & _ & H).
  eexists. split; [reflexivity |].
  destruct (H _ eq_refl) as (_ & Hfind & _).
  exact (Hfind (Some [("age", VNum 26)]) None idle 7 eq_refl).
Defined.
